(** * Serenity market-data feedhandlers: model and properties

    A shallow embedding of [serenity/marketdata/fh/feedhandler.py] and
    [serenity/marketdata/fh/phemex_fh.py]:

    - Python values the code handles: exceptions, [float] as IEEE binary64
      (Rocq's primitive floats), [str.split], dictionaries as [gmap];
    - the objects the code shares and mutates (feedhandlers, [Feed] handles,
      signals, the registry) live in an explicit store, [World], and object
      identity is an address in that store;
    - methods that read and write the store are computations of the monad
      [M], which threads the store and propagates Python exceptions. *)

From Stdlib Require Import ZArith Floats Ascii String.
From stdpp Require Import gmap strings list.

Set Warnings "-inexact-float".
Set Default Proof Using "Type".

(** ** Python values *)

Module Py.

(** The exceptions the modelled code can raise; [OSError] is what file
    operations raise. [NoSuchObject] is not a Python exception: it is the
    outcome of following an address that names no object of the store,
    which Python references never do. *)
Inductive exn : Type :=
| ValueError (msg : string)
| KeyError (key : string)
| OverflowError (msg : string)
| AttributeError (name : string)
| OSError (msg : string)
| JSONDecodeError
| NoSuchObject.

Inductive result (A : Type) : Type :=
| Ok (a : A)
| Raise (e : exn).
Arguments Ok {A} a.
Arguments Raise {A} e.

Definition raises {A} (r : result A) : Prop :=
  match r with Ok _ => False | Raise _ => True end.

Definition rbind {A B} (r : result A) (k : A → result B) : result B :=
  match r with Ok a => k a | Raise e => Raise e end.

(** [d[k]] on a [dict] keyed by strings. *)
Definition getitem {V} (d : gmap string V) (k : string) : result V :=
  match d !! k with
  | Some v => Ok v
  | None => Raise (KeyError k)
  end.

(** The binary64 value nearest to an integer (ties to even). *)
Definition Z2float (z : Z) : float :=
  SF2Prim (binary_normalize prec emax z 0 false).

(** Integers at or beyond this magnitude round past the largest finite
    double. *)
Definition float_overflow : Z := (2 ^ 1024 - 2 ^ 970)%Z.

(** [float(z)] for an [int], also the conversion of an [int] operand of
    [/] whose other operand is a [float]. *)
Definition float_of_int (z : Z) : result float :=
  if (float_overflow <=? Z.abs z)%Z
  then Raise (OverflowError "int too large to convert to float")
  else Ok (Z2float z).

(** A JSON number as [json.loads] returns it. *)
Inductive num : Type :=
| Int (z : Z)
| Float (f : float).

(** [float(x)] for a number. *)
Definition float_ (x : num) : result float :=
  match x with
  | Int z => float_of_int z
  | Float f => Ok f
  end.

(** [x / pow(10, n)] for a [float] x and an [int] n >= 0: [pow] returns the
    [int] 10^n, which [/] converts to [float] before dividing. *)
Definition div_pow10 (x : float) (n : N) : result float :=
  rbind (float_of_int (10 ^ Z.of_N n)) (λ d, Ok (x / d)%float).

(** [s.split(sep)] for a one-character separator. *)
Fixpoint split (sep : ascii) (s : string) : list string :=
  match s with
  | EmptyString => [EmptyString]
  | String c rest =>
      if Ascii.eqb c sep then EmptyString :: split sep rest
      else match split sep rest with
           | [] => [String c EmptyString]
           | part :: parts => String c part :: parts
           end
  end.

Fixpoint contains (c : ascii) (s : string) : bool :=
  match s with
  | EmptyString => false
  | String c' rest => Ascii.eqb c' c || contains c rest
  end.

End Py.

Import Py.

(** ** Data model *)

Inductive FeedHandlerState : Type :=
| INITIALIZING
| STARTING
| LIVE
| STOPPED.

(** The position of a state in the lifecycle. *)
Definition state_rank (s : FeedHandlerState) : nat :=
  match s with
  | INITIALIZING => 0
  | STARTING => 1
  | LIVE => 2
  | STOPPED => 3
  end.

(** Modelled from the spec: [Side] of [serenity.trading.api] is not among the
    sources; trades are buys or sells. *)
Inductive Side : Type :=
| BUY
| SELL.

Definition Side_eqb (a b : Side) : bool :=
  match a, b with
  | BUY, BUY | SELL, SELL => true
  | _, _ => false
  end.

(** Modelled from the spec: [ExchangeInstrument] of [serenity.model.exchange]
    is not among the sources; the handlers read its exchange code and its
    exchange-native symbol, [get_exchange_instrument_code()]. *)
Record ExchangeInstrument : Type := mkExchangeInstrument {
  exchange_code : string;
  exchange_instrument_code : string
}.

(** Modelled from the spec: [Trade] of [serenity.marketdata.api] is not among
    the sources. The fields are the constructor's arguments in the order
    [__extract_trades] passes them; the two integers both receive the wire's
    trade id. *)
Record Trade : Type := mkTrade {
  trade_instrument : ExchangeInstrument;
  sequence_id : Z;
  trade_id : Z;
  side : Side;
  qty : float;
  price : float
}.

(** Objects are named by their address in the store. *)
Definition addr : Type := nat.

(** A signal of the dataflow runtime, named by its creation number. *)
Definition signal : Type := nat.

Record Feed : Type := mkFeed {
  instrument : ExchangeInstrument;
  trades : signal;
  order_book_events : signal;
  order_books : signal
}.

(** The fields of a [WebsocketFeedHandler] together with those its subclass
    [PhemexFeedHandler] adds. [uri_scheme] is what the subclass's static
    [get_uri_scheme()] returns; [state] is the current value of the state
    signal. *)
Record FeedHandler : Type := mkFeedHandler {
  uri_scheme : string;
  instance_id : string;
  instruments : list ExchangeInstrument;
  known_instrument_ids : gmap string ExchangeInstrument;
  price_scaling : gmap string N;
  state : FeedHandlerState;
  instrument_trades : gmap string signal;
  instrument_order_book_events : gmap string signal;
  instrument_order_books : gmap string signal;
  include_symbol : string
}.

Record FeedHandlerRegistry : Type := mkRegistry {
  fh_registry : gmap string addr;
  feeds : gmap string addr
}.

(** What the code does to the outside, in program order. *)
Inductive Effect : Type :=
| LogInfo (msg : string)
| ScheduleState (fh : addr) (s : FeedHandlerState)
| EnsureFuture (fh : addr) (symbol : string) (msg_type : string).

(** The store: feedhandler objects and [Feed] objects by address, the number
    of signals created so far, the registry of the process, and the effects
    so far. *)
Record World : Type := mkWorld {
  handlers : list FeedHandler;
  feed_objects : list Feed;
  signals : nat;
  registry : FeedHandlerRegistry;
  trace : list Effect
}.

Definition empty_registry : FeedHandlerRegistry :=
  {| fh_registry := ∅; feeds := ∅ |}.

Definition empty_world : World :=
  {| handlers := []; feed_objects := []; signals := 0;
     registry := empty_registry; trace := [] |}.

(** ** The monad of store-passing computations that may raise *)

Definition M (A : Type) : Type := World → result A * World.

Definition ret {A} (a : A) : M A := λ w, (Ok a, w).

Definition raise {A} (e : exn) : M A := λ w, (Raise e, w).

Definition bind {A B} (m : M A) (k : A → M B) : M B :=
  λ w, match m w with
       | (Ok a, w') => k a w'
       | (Raise e, w') => (Raise e, w')
       end.

#[global] Instance M_ret : MRet M := @ret.
#[global] Instance M_bind : MBind M := λ A B k m, bind m k.

Definition lift {A} (r : result A) : M A := λ w, (r, w).

Definition emit (e : Effect) : M unit :=
  λ w, (Ok tt, {| handlers := handlers w; feed_objects := feed_objects w;
                  signals := signals w; registry := registry w;
                  trace := trace w ++ [e] |}).

Definition logger_info (msg : string) : M unit := emit (LogInfo msg).

(** Creating a signal ([MutableSignal()], [OrderBookBuilder(...)]). *)
Definition new_signal : M signal :=
  λ w, (Ok (signals w),
        {| handlers := handlers w; feed_objects := feed_objects w;
           signals := S (signals w); registry := registry w;
           trace := trace w |}).

(** Creating a [Feed] object: it gets the next free address. *)
Definition new_Feed (f : Feed) : M addr :=
  λ w, (Ok (length (feed_objects w)),
        {| handlers := handlers w; feed_objects := feed_objects w ++ [f];
           signals := signals w; registry := registry w;
           trace := trace w |}).

Definition new_FeedHandler (fh : FeedHandler) : M addr :=
  λ w, (Ok (length (handlers w)),
        {| handlers := handlers w ++ [fh]; feed_objects := feed_objects w;
           signals := signals w; registry := registry w;
           trace := trace w |}).

Definition read_handler (a : addr) : M FeedHandler :=
  λ w, match handlers w !! a with
       | Some fh => (Ok fh, w)
       | None => (Raise NoSuchObject, w)
       end.

Definition update_handler (a : addr) (f : FeedHandler → FeedHandler) : M unit :=
  λ w, match handlers w !! a with
       | Some fh =>
           (Ok tt, {| handlers := <[a := f fh]> (handlers w);
                      feed_objects := feed_objects w; signals := signals w;
                      registry := registry w; trace := trace w |})
       | None => (Raise NoSuchObject, w)
       end.

Definition read_registry : M FeedHandlerRegistry := λ w, (Ok (registry w), w).

Definition write_registry (r : FeedHandlerRegistry) : M unit :=
  λ w, (Ok tt, {| handlers := handlers w; feed_objects := feed_objects w;
                  signals := signals w; registry := r; trace := trace w |}).

(** [for x in xs: body(x)] *)
Fixpoint for_each {A} (xs : list A) (body : A → M unit) : M unit :=
  match xs with
  | [] => mret tt
  | x :: rest => body x;; for_each rest body
  end.

(** Assignments to the fields of a handler. *)
Definition set_state (s : FeedHandlerState) (fh : FeedHandler) : FeedHandler :=
  {| uri_scheme := uri_scheme fh; instance_id := instance_id fh;
     instruments := instruments fh;
     known_instrument_ids := known_instrument_ids fh;
     price_scaling := price_scaling fh; state := s;
     instrument_trades := instrument_trades fh;
     instrument_order_book_events := instrument_order_book_events fh;
     instrument_order_books := instrument_order_books fh;
     include_symbol := include_symbol fh |}.

Definition set_instrument_trades (symbol : string) (sg : signal)
    (fh : FeedHandler) : FeedHandler :=
  {| uri_scheme := uri_scheme fh; instance_id := instance_id fh;
     instruments := instruments fh;
     known_instrument_ids := known_instrument_ids fh;
     price_scaling := price_scaling fh; state := state fh;
     instrument_trades := <[symbol := sg]> (instrument_trades fh);
     instrument_order_book_events := instrument_order_book_events fh;
     instrument_order_books := instrument_order_books fh;
     include_symbol := include_symbol fh |}.

Definition set_instrument_order_book_events (symbol : string) (sg : signal)
    (fh : FeedHandler) : FeedHandler :=
  {| uri_scheme := uri_scheme fh; instance_id := instance_id fh;
     instruments := instruments fh;
     known_instrument_ids := known_instrument_ids fh;
     price_scaling := price_scaling fh; state := state fh;
     instrument_trades := instrument_trades fh;
     instrument_order_book_events :=
       <[symbol := sg]> (instrument_order_book_events fh);
     instrument_order_books := instrument_order_books fh;
     include_symbol := include_symbol fh |}.

Definition set_instrument_order_books (symbol : string) (sg : signal)
    (fh : FeedHandler) : FeedHandler :=
  {| uri_scheme := uri_scheme fh; instance_id := instance_id fh;
     instruments := instruments fh;
     known_instrument_ids := known_instrument_ids fh;
     price_scaling := price_scaling fh; state := state fh;
     instrument_trades := instrument_trades fh;
     instrument_order_book_events := instrument_order_book_events fh;
     instrument_order_books := <[symbol := sg]> (instrument_order_books fh);
     include_symbol := include_symbol fh |}.

(** [(a, b, c) = parts]: unpacking a list into three names. *)
Definition unpack3 (parts : list string) : result (string * string * string) :=
  match parts with
  | [a; b; c] => Ok (a, b, c)
  | [] => Raise (ValueError "not enough values to unpack (expected 3, got 0)")
  | [_] => Raise (ValueError "not enough values to unpack (expected 3, got 1)")
  | [_; _] =>
      Raise (ValueError "not enough values to unpack (expected 3, got 2)")
  | _ => Raise (ValueError "too many values to unpack (expected 3)")
  end.

(** [scheduler.schedule_update(self.state, s)]: the state signal of the
    handler takes the value [s]. Updates are applied in the order they are
    scheduled, which [trace] records. *)
Definition schedule_state (self : addr) (s : FeedHandlerState) : M unit :=
  update_handler self (set_state s);;
  emit (ScheduleState self s).

(** ** PhemexFeedHandler and WebsocketFeedHandler *)

Module PhemexFeedHandler.

Definition get_uri_scheme : string := "phemex".

(** An entry of the exchange's product list, with the fields
    [_load_instruments] reads. *)
Record Product : Type := mkProduct {
  symbol : string;
  baseCurrency : string;
  quoteCurrency : string;
  priceScale : N
}.

(** Modelled from the spec: [InstrumentCache] of [serenity.db.api] is not
    among the sources; its get-or-create returns the instrument identity
    for an exchange and a native symbol. *)
Definition get_or_create_exchange_instrument (symbol : string)
    (exchange : string) : ExchangeInstrument :=
  {| exchange_code := exchange; exchange_instrument_code := symbol |}.

(** The body of the loop of [_load_instruments]; its log lines, which
    print database identifiers, are left out. *)
Definition load_product (fh : FeedHandler) (product : Product) : FeedHandler :=
  let exch_instrument :=
    get_or_create_exchange_instrument (symbol product) "PHEMEX" in
  {| uri_scheme := uri_scheme fh; instance_id := instance_id fh;
     instruments := instruments fh ++ [exch_instrument];
     known_instrument_ids :=
       <[symbol product := exch_instrument]> (known_instrument_ids fh);
     price_scaling :=
       <[symbol product := priceScale product]> (price_scaling fh);
     state := state fh;
     instrument_trades := instrument_trades fh;
     instrument_order_book_events := instrument_order_book_events fh;
     instrument_order_books := instrument_order_books fh;
     include_symbol := include_symbol fh |}.

Definition _load_instruments (products : list Product) (fh : FeedHandler)
    : FeedHandler :=
  foldl load_product fh products.

(** The constructor; [products] is the product list the exchange
    returns. *)
Definition __init__ (products : list Product) (include_symbol : string)
    (instance_id : string) : M addr :=
  new_FeedHandler
    (_load_instruments products
       {| uri_scheme := get_uri_scheme; instance_id := instance_id;
          instruments := []; known_instrument_ids := ∅;
          price_scaling := ∅; state := INITIALIZING;
          instrument_trades := ∅; instrument_order_book_events := ∅;
          instrument_order_books := ∅;
          include_symbol := include_symbol |}).

Definition _create_feed (self : FeedHandler) (instrument : ExchangeInstrument)
    : M addr :=
  let symbol := exchange_instrument_code instrument in
  t ← lift (getitem (instrument_trades self) symbol);
  e ← lift (getitem (instrument_order_book_events self) symbol);
  b ← lift (getitem (instrument_order_books self) symbol);
  new_Feed (mkFeed instrument t e b).

(** The body of the loop of [_subscribe_trades_and_quotes] for one
    instrument. The three signals the handler publishes are created and
    filed under the symbol, then the two subscriptions are launched. The
    nodes of the decoding pipeline, private to the loop body, are modelled
    by [on_trade_message] below and are not numbered here. *)
Definition subscribe_instrument (self : addr) (include_symbol : string)
    (instrument : ExchangeInstrument) : M unit :=
  let symbol := exchange_instrument_code instrument in
  if String.eqb symbol include_symbol || String.eqb include_symbol "*" then
    t ← new_signal;
    update_handler self (set_instrument_trades symbol t);;
    e ← new_signal;
    update_handler self (set_instrument_order_book_events symbol e);;
    b ← new_signal;
    update_handler self (set_instrument_order_books symbol b);;
    emit (EnsureFuture self symbol "trade");;
    emit (EnsureFuture self symbol "order book")
  else mret tt.

Definition _subscribe_trades_and_quotes (self : addr) : M unit :=
  fh ← read_handler self;
  for_each (instruments fh) (subscribe_instrument self (include_symbol fh));;
  schedule_state self LIVE.

End PhemexFeedHandler.

Module WebsocketFeedHandler.

(** [get_feed] reads the handler and does not change it: it takes the
    handler's fields. *)
Definition get_feed (self : FeedHandler) (uri : string) : M addr :=
  '(scheme, instance_id', instrument_id) ← lift (unpack3 (split ":" uri));
  if negb (String.eqb scheme (uri_scheme self)) then
    raise (ValueError ("Unsupported URI scheme: " +:+ scheme))
  else if negb (String.eqb instance_id' (instance_id self)) then
    raise (ValueError ("Unsupported instance ID: " +:+ instance_id'))
  else
    match known_instrument_ids self !! instrument_id with
    | None =>
        raise (ValueError ("Unknown exchange Instrument: " +:+ instrument_id))
    | Some instrument =>
        logger_info ("Acquiring Feed for " +:+ uri);;
        PhemexFeedHandler._create_feed self instrument
    end.

Definition start (self : addr) : M unit :=
  schedule_state self STARTING;;
  PhemexFeedHandler._subscribe_trades_and_quotes self.

End WebsocketFeedHandler.

(** ** FeedHandlerRegistry *)

Module FeedHandlerRegistry.

Definition _get_fh_key (feedhandler : FeedHandler) : string :=
  uri_scheme feedhandler +:+ ":" +:+ instance_id feedhandler.

Definition register (feedhandler : addr) : M unit :=
  fh ← read_handler feedhandler;
  let fh_key := _get_fh_key fh in
  r ← read_registry;
  write_registry {| fh_registry := <[fh_key := feedhandler]> (fh_registry r);
                    feeds := feeds r |};;
  logger_info ("registered FeedHandler: " +:+ fh_key).

(** A handler object is truthy, so the guard [if not fh] after the lookup
    never fires: a missing key has already raised [KeyError]. *)
Definition get_feed (uri : string) : M addr :=
  r ← read_registry;
  match feeds r !! uri with
  | Some feed => mret feed
  | None =>
      '(scheme, instance, instrument_id) ← lift (unpack3 (split ":" uri));
      fh ← lift (getitem (fh_registry r) (scheme +:+ ":" +:+ instance));
      h ← read_handler fh;
      feed ← WebsocketFeedHandler.get_feed h uri;
      r' ← read_registry;
      write_registry {| fh_registry := fh_registry r';
                        feeds := <[uri := feed]> (feeds r') |};;
      mret feed
  end.

End FeedHandlerRegistry.

(** ** The exchange message normalizer *)

#[global] Instance result_ret : MRet result := @Ok.
#[global] Instance result_bind : MBind result := λ A B k r, rbind r k.

(** An entry of the [trades] list of a trade message: the JSON list
    [[trade_id, side, scaled_price, quantity]]. *)
Record RawTrade : Type := mkRawTrade {
  raw_trade_id : Z;
  raw_side : string;
  raw_price : Z;
  raw_qty : num
}.

(** The JSON object of an inbound message, with the keys the trade pipeline
    reads; a field is [None] when the object has no such key. *)
Record Message : Type := mkMessage {
  msg_type : option string;
  msg_symbol : option string;
  msg_trades : option (list RawTrade)
}.

(** [msg[key]] on a decoded message. *)
Definition msg_getitem {A} (key : string) (field : option A) : result A :=
  match field with
  | Some v => Ok v
  | None => Raise (KeyError key)
  end.

(** A text frame received from the exchange: text [json.loads] rejects,
    the text of a JSON value that is not an object (an array, a string, a
    number, [true], [false] or [null]), or the text of a JSON object. The
    fields of an object have the types the exchange documents: an object
    whose [trades] is not a list of such tuples is not among the frames. *)
Inductive Payload : Type :=
| Undecodable (text : string)
| NotObject (text : string)
| Json (msg : Message).

(** What [json.loads] returns: a [dict] for an object, a value of another
    type for every other JSON text. *)
Inductive JsonValue (A : Type) : Type :=
| JObject (msg : A)
| JOther.
Arguments JObject {A} msg.
Arguments JOther {A}.

Definition json_loads (x : Payload) : result (JsonValue Message) :=
  match x with
  | Undecodable _ => Raise JSONDecodeError
  | NotObject _ => Ok JOther
  | Json msg => Ok (JObject msg)
  end.

(** The method lookup of [x.get(...)]: of the values [json.loads] returns
    only a [dict] has [get]. *)
Definition dict_get {A} (x : JsonValue A) : result A :=
  match x with
  | JObject msg => Ok msg
  | JOther => Raise (AttributeError "get")
  end.

(** The loop of [__extract_trades]; [trade_list] is the list built so far. *)
Fixpoint extract_trades_loop (instrument : ExchangeInstrument)
    (price_scale : N) (raw : list RawTrade) (trade_list : list Trade)
    : result (list Trade) :=
  match raw with
  | [] => Ok trade_list
  | trade :: rest =>
      let trade_id := raw_trade_id trade in
      let side := if String.eqb (raw_side trade) "Buy" then BUY else SELL in
      p ← float_of_int (raw_price trade);
      price ← div_pow10 p price_scale;
      qty ← float_ (raw_qty trade);
      extract_trades_loop instrument price_scale rest
        (trade_list ++ [mkTrade instrument trade_id trade_id side qty price])
  end.

Definition __extract_trades (self : FeedHandler) (msg : Message)
    : result (list Trade) :=
  symbol ← msg_getitem "symbol" (msg_symbol msg);
  instrument ← getitem (known_instrument_ids self) symbol;
  price_scale ← getitem (price_scaling self) symbol;
  raw ← msg_getitem "trades" (msg_trades msg);
  extract_trades_loop instrument price_scale raw [].

(** [x.get('type', None) == 'incremental'] *)
Definition is_incremental (x : Message) : bool :=
  match msg_type x with
  | Some t => String.eqb t "incremental"
  | None => false
  end.

(** The trade pipeline of one instrument, from a received frame to the
    trades it yields: [json.loads], the filter on the message type, then
    [__extract_trades]. A message the filter rejects yields no trade. *)
Definition on_trade_message (self : FeedHandler) (x : Payload)
    : result (list Trade) :=
  v ← json_loads x;
  msg ← dict_get v;
  if is_incremental msg then __extract_trades self msg else Ok [].

(** ** OrderBookBuilder *)

Module Book.

(** Modelled from the spec: [BookLevel] of [serenity.marketdata.api] is
    not among the sources; a level is a price and a quantity. *)
Record BookLevel : Type := mkBookLevel {
  px : float;
  level_qty : float
}.

(** Modelled from the spec: [OrderBookSnapshot] and [OrderBookUpdate] of
    [serenity.marketdata.api] are not among the sources; the fields are
    the arguments [__extract_order_book_event] constructs them with. *)
Inductive OrderBookEvent : Type :=
| OrderBookSnapshot (instrument : ExchangeInstrument)
    (bids asks : list BookLevel) (seq_num : Z)
| OrderBookUpdate (instrument : ExchangeInstrument)
    (bids asks : list BookLevel) (seq_num : Z).

Definition get_bids (e : OrderBookEvent) : list BookLevel :=
  match e with
  | OrderBookSnapshot _ bids _ _ | OrderBookUpdate _ bids _ _ => bids
  end.

Definition get_asks (e : OrderBookEvent) : list BookLevel :=
  match e with
  | OrderBookSnapshot _ _ asks _ | OrderBookUpdate _ _ asks _ => asks
  end.

(** Modelled from the spec: [OrderBook] of [serenity.marketdata.api] is
    not among the sources. A book holds its bid and its ask levels;
    constructing one from two lists of levels stores these levels. *)
Record OrderBook : Type := mkOrderBook {
  bids : list BookLevel;
  asks : list BookLevel
}.

Definition remove_level (p : float) (levels : list BookLevel)
    : list BookLevel :=
  List.filter (λ l, negb (PrimFloat.eqb (px l) p)) levels.

Fixpoint insert_level (better : float → float → bool) (l : BookLevel)
    (levels : list BookLevel) : list BookLevel :=
  match levels with
  | [] => [l]
  | l' :: rest =>
      if better (px l) (px l') then l :: levels
      else l' :: insert_level better l rest
  end.

Definition set_level (better : float → float → bool)
    (levels : list BookLevel) (l : BookLevel) : list BookLevel :=
  let others := remove_level (px l) levels in
  if PrimFloat.eqb (level_qty l) 0 then others
  else insert_level better l others.

(** Modelled from the spec: [OrderBook.apply_order_book_update] is not
    among the sources. For each level of the update, quantity 0 removes
    the price from the book, any other quantity sets or replaces the
    level; bids stay in descending and asks in ascending price order. *)
Definition apply_order_book_update (book : OrderBook) (e : OrderBookEvent)
    : OrderBook :=
  {| bids := foldl (set_level (λ p q, PrimFloat.ltb q p)) (bids book)
               (get_bids e);
     asks := foldl (set_level PrimFloat.ltb) (asks book) (get_asks e) |}.

(** The builder: its book, and the value of the signal it is, [None]
    until the first [_update]. The signal holds the book object itself, so
    an update in place is seen through it. *)
Record OrderBookBuilder : Type := mkBuilder {
  order_book : OrderBook;
  value : option OrderBook
}.

Definition __init__ : OrderBookBuilder :=
  {| order_book := mkOrderBook [] []; value := None |}.

(** [_call]; [events] is the value of the events signal, [None] while the
    signal is not valid. *)
Definition _call (self : OrderBookBuilder) (events : option OrderBookEvent)
    : OrderBookBuilder :=
  match events with
  | Some next_event =>
      let book :=
        match next_event with
        | OrderBookSnapshot _ _ _ _ =>
            mkOrderBook (get_bids next_event) (get_asks next_event)
        | OrderBookUpdate _ _ _ _ =>
            apply_order_book_update (order_book self) next_event
        end in
      {| order_book := book; value := Some book |}
  | None => self
  end.

(** The builder after the events signal has fired with each event in
    turn. *)
Definition run (self : OrderBookBuilder) (events : list OrderBookEvent)
    : OrderBookBuilder :=
  foldl (λ b e, _call b (Some e)) self events.

End Book.

(** ** Journaling trades *)

Module SubscribeTrades.

(** Modelled from the spec: the appender of
    [serenity.marketdata.tickstore.journal] is not among the sources. Its
    [write_double], [write_long], [write_short] and [write_string] append a
    float64, an int64, an int16 and a length-prefixed utf8 string; the
    journal is the sequence of fields written so far. *)
Inductive JournalField : Type :=
| write_double (x : float)
| write_long (x : Z)
| write_short (x : Z)
| write_string (s : string).

(** The event object: its appender (the journal behind it) and the
    process's counter of trade prints. *)
Record t : Type := mk {
  appender : list JournalField;
  trade_counter : nat
}.

(** [on_trade_print]; [utcnow] is the clock reading
    [datetime.utcnow().timestamp()]. The log line is left out. *)
Definition on_trade_print (self : t) (utcnow : float) (trade : Trade) : t :=
  {| trade_counter := S (trade_counter self);
     appender :=
       appender self
         ++ [write_double utcnow]
         ++ [write_long (trade_id trade)]
         ++ [write_long (trade_id trade)]
         ++ [write_string (exchange_instrument_code (trade_instrument trade))]
         ++ [write_short (if Side_eqb (side trade) BUY then 1 else 0)]
         ++ [write_double (qty trade)]
         ++ [write_double (price trade)] |}.

(** The trades signal fires once per trade; each firing runs
    [on_trade_print] with the clock reading of that moment. *)
Definition on_trades (self : t) (prints : list (float * Trade)) : t :=
  foldl (λ s p, on_trade_print s p.1 p.2) self prints.

(** The trade record of the journal layout: float64 timestamp, int64
    trade id twice, length-prefixed instrument code, int16 side flag
    (1 = buy, 0 = sell), float64 quantity, float64 price. *)
Definition spec_trade_record (utcnow : float) (trade : Trade)
    : list JournalField :=
  [ write_double utcnow;
    write_long (trade_id trade);
    write_long (trade_id trade);
    write_string (exchange_instrument_code (trade_instrument trade));
    write_short (match side trade with BUY => 1 | SELL => 0 end);
    write_double (qty trade);
    write_double (price trade) ].

End SubscribeTrades.

(** ** Runs of the program *)

(** The calls a program makes on handlers and on the registry. *)
Inductive Call : Type :=
| CallNew (products : list PhemexFeedHandler.Product)
    (include_symbol : string) (instance_id : string)
| CallStart (fh : addr)
| CallRegister (fh : addr)
| CallGetFeed (uri : string)
| CallHandlerGetFeed (fh : addr) (uri : string).

(** The store after a call, whether the call returns or raises. *)
Definition call (w : World) (c : Call) : World :=
  match c with
  | CallNew products include_symbol instance_id =>
      (PhemexFeedHandler.__init__ products include_symbol instance_id w).2
  | CallStart fh => (WebsocketFeedHandler.start fh w).2
  | CallRegister fh => (FeedHandlerRegistry.register fh w).2
  | CallGetFeed uri => (FeedHandlerRegistry.get_feed uri w).2
  | CallHandlerGetFeed fh uri =>
      ((h ← read_handler fh; WebsocketFeedHandler.get_feed h uri) w).2
  end.

Definition calls (w : World) (cs : list Call) : World := foldl call w cs.

(** The values scheduled on the state signal of the handler at [a], in
    order. *)
Definition scheduled_states (a : addr) (w : World) : list FeedHandlerState :=
  omap (λ e, match e with
             | ScheduleState a' s => if decide (a' = a) then Some s else None
             | _ => None
             end) (trace w).

(** The URI [scheme:instance:symbol]. *)
Definition feed_uri (scheme instance symbol : string) : string :=
  scheme +:+ ":" +:+ instance +:+ ":" +:+ symbol.

(** ** A Phemex handler for BTCUSD *)

Module Example.

Definition products : list PhemexFeedHandler.Product :=
  [PhemexFeedHandler.mkProduct "BTCUSD" "BTC" "USD" 4].

Definition BTCUSD : ExchangeInstrument :=
  {| exchange_code := "PHEMEX"; exchange_instrument_code := "BTCUSD" |}.

(** After construction. *)
Definition constructed : World :=
  calls empty_world [CallNew products "*" "prod"].

(** After construction, registration and [start()]. *)
Definition live : World :=
  calls constructed [CallRegister 0; CallStart 0].

(** The handler object of these stores, at address 0. *)
Definition handler_of (w : World) : FeedHandler :=
  default (mkFeedHandler "" "" [] ∅ ∅ INITIALIZING ∅ ∅ ∅ "")
    (handlers w !! 0).

Definition uri : string := "phemex:prod:BTCUSD".

Definition trade_msg : Message :=
  {| msg_type := Some "incremental"; msg_symbol := Some "BTCUSD";
     msg_trades := Some [mkRawTrade 555 "Buy" 3427800 (Float 2.5)] |}.

End Example.

(** The store after the registry's first [get_feed] of the example URI. *)
Definition acquired_by_registry : World :=
  (FeedHandlerRegistry.get_feed Example.uri Example.live).2.

(** ** Statements *)

(** An integer [float()] converts without overflow. *)
Definition convertible (z : Z) : Prop := (Z.abs z < float_overflow)%Z.

(** A raw trade whose price and quantity [float()] converts. *)
Definition convertible_trade (t : RawTrade) : Prop :=
  convertible (raw_price t) ∧
  match raw_qty t with
  | Int z => convertible z
  | Float _ => True
  end.

(** A part of a URI: a string without the separator. *)
Definition no_colon (s : string) : Prop := contains ":" s = false.

(** The instruments [_subscribe_trades_and_quotes] subscribes. *)
Definition included (include_symbol : string) (i : ExchangeInstrument) : bool :=
  String.eqb (exchange_instrument_code i) include_symbol
  || String.eqb include_symbol "*".

(** The signals of an instrument are filed under its symbol. *)
Definition subscribed (self : FeedHandler) (i : ExchangeInstrument)
    (t e b : signal) : Prop :=
  instrument_trades self !! exchange_instrument_code i = Some t ∧
  instrument_order_book_events self !! exchange_instrument_code i = Some e ∧
  instrument_order_books self !! exchange_instrument_code i = Some b.


(** The handler's [get_feed] raises exactly on a scheme mismatch, an
    instance mismatch or an undiscovered symbol. *)
Definition get_feed_raises_iff_not_addressed : Prop :=
  ∀ (self : FeedHandler) (w : World) (scheme instance symbol : string),
    no_colon scheme → no_colon instance → no_colon symbol →
    raises (WebsocketFeedHandler.get_feed self
              (feed_uri scheme instance symbol) w).1
    ↔ (scheme ≠ uri_scheme self ∨ instance ≠ instance_id self
       ∨ known_instrument_ids self !! symbol = None).


(** A sequence of states that never steps back in the lifecycle. *)
Definition never_backwards (l : list FeedHandlerState) : Prop :=
  ∀ i s s', l !! i = Some s → l !! S i = Some s' →
            state_rank s ≤ state_rank s'.

(** The values of the state signal of a handler constructed in the empty
    store and started [n] times. *)
Definition states_after_starts (products : list PhemexFeedHandler.Product)
    (include_symbol instance_id : string) (n : nat) : list FeedHandlerState :=
  INITIALIZING ::
  scheduled_states 0
    (calls empty_world
       (CallNew products include_symbol instance_id :: repeat (CallStart 0) n)).

(** However often [start()] is invoked, the state never moves backwards. *)
Definition state_never_moves_backwards : Prop :=
  ∀ products include_symbol instance_id n,
    never_backwards (states_after_starts products include_symbol instance_id n).

(** The subscriptions [start()] launches for an instrument. *)
Definition subscriptions (a : addr) (i : ExchangeInstrument) : list Effect :=
  [EnsureFuture a (exchange_instrument_code i) "trade";
   EnsureFuture a (exchange_instrument_code i) "order book"].

(** The trade a raw trade decodes to, for an instrument and its price
    scale: the price is the raw integer divided by 10^scale, in binary64. *)
Definition decoded (instrument : ExchangeInstrument) (price_scale : N)
    (t : RawTrade) : Trade :=
  {| trade_instrument := instrument;
     sequence_id := raw_trade_id t;
     trade_id := raw_trade_id t;
     side := if String.eqb (raw_side t) "Buy" then BUY else SELL;
     qty := match raw_qty t with Int z => Z2float z | Float f => f end;
     price := (Z2float (raw_price t) / Z2float (10 ^ Z.of_N price_scale))%float |}.

(** The store after a successful [get_feed] of a handler: one more log line
    and one new [Feed] object. *)
Definition acquired (w : World) (uri : string) (f : Feed) : World :=
  {| handlers := handlers w;
     feed_objects := feed_objects w ++ [f];
     signals := signals w;
     registry := registry w;
     trace := trace w ++ [LogInfo ("Acquiring Feed for " +:+ uri)] |}.

(** Every cached URI has three parts and a handler registered under its
    first two. *)
Definition cache_addressed (r : FeedHandlerRegistry) : Prop :=
  ∀ uri a, feeds r !! uri = Some a →
    ∃ scheme instance symbol,
      split ":" uri = [scheme; instance; symbol]
      ∧ is_Some (fh_registry r !! (scheme +:+ ":" +:+ instance)).

(** A computation that leaves the registry as it is. *)
Definition keeps_registry {A} (m : M A) : Prop :=
  ∀ w, registry (m w).2 = registry w.

(** The three signals of a symbol are filed in the handler. *)
Definition has_signals (fh : FeedHandler) (symbol : string) : Prop :=
  is_Some (instrument_trades fh !! symbol)
  ∧ is_Some (instrument_order_book_events fh !! symbol)
  ∧ is_Some (instrument_order_books fh !! symbol).

(** Two states of a handler that agree on what [get_feed] checks and on
    what [start] iterates over. *)
Definition same_addressing (fh fh' : FeedHandler) : Prop :=
  uri_scheme fh' = uri_scheme fh
  ∧ instance_id fh' = instance_id fh
  ∧ known_instrument_ids fh' = known_instrument_ids fh
  ∧ instruments fh' = instruments fh
  ∧ include_symbol fh' = include_symbol fh.

(** The handler after the loop body of [_subscribe_trades_and_quotes] has
    run for an instrument, [n] signals having been created before. *)
Definition subscribed_handler (inc : string) (i : ExchangeInstrument)
    (n : nat) (fh : FeedHandler) : FeedHandler :=
  if included inc i then
    set_instrument_order_books (exchange_instrument_code i) (S (S n))
      (set_instrument_order_book_events (exchange_instrument_code i) (S n)
         (set_instrument_trades (exchange_instrument_code i) n fh))
  else fh.

(** ** Order-book messages *)

(** An entry of [book.bids] or [book.asks] of a book message: the JSON list
    [[scaled_price, quantity]]. *)
Record RawLevel : Type := mkRawLevel {
  raw_px : Z;
  raw_level_qty : num
}.

(** The [book] object of a book message; a side is [None] when the object
    has no such key. *)
Record RawBook : Type := mkRawBook {
  raw_bids : option (list RawLevel);
  raw_asks : option (list RawLevel)
}.

(** The JSON object of an inbound order-book message, with the keys the
    book pipeline reads. *)
Record BookMessage : Type := mkBookMessage {
  book_msg_type : option string;
  book_msg_symbol : option string;
  book_msg_sequence : option Z;
  book_msg_book : option RawBook
}.

(** A text frame of the order-book connection, as [Payload] is for the
    trade connection. *)
Inductive BookPayload : Type :=
| BookUndecodable (text : string)
| BookNotObject (text : string)
| BookJson (msg : BookMessage).

Definition book_json_loads (x : BookPayload)
    : result (JsonValue BookMessage) :=
  match x with
  | BookUndecodable _ => Raise JSONDecodeError
  | BookNotObject _ => Ok JOther
  | BookJson msg => Ok (JObject msg)
  end.

(** The loop of [to_book_level_list], local to
    [__extract_order_book_event]; [book_levels] is the list built so far. *)
Fixpoint to_book_level_list (price_scale : N) (px_qty_list : list RawLevel)
    (book_levels : list Book.BookLevel) : result (list Book.BookLevel) :=
  match px_qty_list with
  | [] => Ok book_levels
  | px_qty :: rest =>
      p ← float_of_int (raw_px px_qty);
      px ← div_pow10 p price_scale;
      qty ← float_ (raw_level_qty px_qty);
      to_book_level_list price_scale rest
        (book_levels ++ [Book.mkBookLevel px qty])
  end.

Definition __extract_order_book_event (self : FeedHandler) (msg : BookMessage)
    : M Book.OrderBookEvent :=
  symbol ← lift (msg_getitem "symbol" (book_msg_symbol msg));
  seq_num ← lift (msg_getitem "sequence" (book_msg_sequence msg));
  msg_type ← lift (msg_getitem "type" (book_msg_type msg));
  instrument ← lift (getitem (known_instrument_ids self) symbol);
  price_scale ← lift (getitem (price_scaling self) symbol);
  book ← lift (msg_getitem "book" (book_msg_book msg));
  if String.eqb msg_type "snapshot" then
    logger_info "received initial L2 order book snapshot";;
    bids ← lift (l ← msg_getitem "bids" (raw_bids book);
                 to_book_level_list price_scale l []);
    asks ← lift (l ← msg_getitem "asks" (raw_asks book);
                 to_book_level_list price_scale l []);
    mret (Book.OrderBookSnapshot instrument bids asks seq_num)
  else
    bids ← lift (l ← msg_getitem "bids" (raw_bids book);
                 to_book_level_list price_scale l []);
    asks ← lift (l ← msg_getitem "asks" (raw_asks book);
                 to_book_level_list price_scale l []);
    mret (Book.OrderBookUpdate instrument bids asks seq_num).

(** [x.get('type', None) in ['incremental', 'snapshot']] *)
Definition is_book_event (x : BookMessage) : bool :=
  match book_msg_type x with
  | Some t => String.eqb t "incremental" || String.eqb t "snapshot"
  | None => false
  end.

(** The order-book pipeline of one instrument, from a received frame to the
    event it yields: [json.loads], the filter on the message type, then
    [__extract_order_book_event]. A message the filter rejects yields no
    event. *)
Definition on_order_book_message (self : FeedHandler) (x : BookPayload)
    : M (option Book.OrderBookEvent) :=
  v ← lift (book_json_loads x);
  msg ← lift (dict_get v);
  if is_book_event msg then
    e ← __extract_order_book_event self msg; mret (Some e)
  else mret None.

(** [get_instrument()] of an order-book event. *)
Definition event_instrument (e : Book.OrderBookEvent) : ExchangeInstrument :=
  match e with
  | Book.OrderBookSnapshot i _ _ _ | Book.OrderBookUpdate i _ _ _ => i
  end.

(** ** The schedulers behind the pipelines *)

Module TradeScheduler.

(** [on_activate]; [trades] is the value of the pipeline's trades signal,
    [None] while it is not valid. The result is what [on_activate] returns
    together with the update it schedules: a signal and the trade it
    takes. *)
Definition on_activate (fh : FeedHandler) (trades : option Trade)
    : result (bool * option (signal * Trade)) :=
  match trades with
  | Some trade =>
      let trade_symbol := exchange_instrument_code (trade_instrument trade) in
      trade_signal ← getitem (instrument_trades fh) trade_symbol;
      Ok (true, Some (trade_signal, trade))
  | None => Ok (false, None)
  end.

End TradeScheduler.

Module OrderBookEventScheduler.

Definition on_activate (fh : FeedHandler)
    (order_book_events : option Book.OrderBookEvent)
    : result (bool * option (signal * Book.OrderBookEvent)) :=
  match order_book_events with
  | Some obe =>
      let obe_symbol := exchange_instrument_code (event_instrument obe) in
      obe_signal ← getitem (instrument_order_book_events fh) obe_symbol;
      Ok (true, Some (obe_signal, obe))
  | None => Ok (false, None)
  end.

End OrderBookEventScheduler.

(** The trades of a list, one activation of [TradeScheduler] each, as the
    flat-map node of the pipeline emits them: the updates scheduled, in
    order. *)
Fixpoint schedule_trades (fh : FeedHandler) (ts : list Trade)
    : result (list (signal * Trade)) :=
  match ts with
  | [] => Ok []
  | t :: rest =>
      r ← TradeScheduler.on_activate fh (Some t);
      updates ← schedule_trades fh rest;
      Ok (match r.2 with Some u => u :: updates | None => updates end)
  end.

(** The trade pipeline with its scheduler: from a received frame to the
    updates scheduled on the handler's trade signals. *)
Definition trade_pipeline (fh : FeedHandler) (x : Payload)
    : result (list (signal * Trade)) :=
  ts ← on_trade_message fh x;
  schedule_trades fh ts.

(** ** Journaling order books *)

Module SubscribeOrderBook.

Section BestOfBook.

(** [OrderBook.get_best_bid] and [OrderBook.get_best_ask], of
    [serenity.marketdata.api], are not among the sources: they are taken as
    they come. *)
Variables (get_best_bid get_best_ask : Book.OrderBook → Book.BookLevel).

(** The event object: its appender (the journal behind it) and the
    process's counter of book updates. *)
Record t : Type := mk {
  appender : list SubscribeTrades.JournalField;
  book_update_counter : nat
}.

(** [on_book_update]; [utcnow] is the clock reading
    [datetime.utcnow().timestamp()]. *)
Definition on_book_update (self : t) (utcnow : float) (book : Book.OrderBook)
    : t :=
  {| book_update_counter := S (book_update_counter self);
     appender :=
       appender self
         ++ [SubscribeTrades.write_double utcnow]
         ++ (if bool_decide (0 < length (Book.bids book)) then
               [SubscribeTrades.write_double
                  (Book.level_qty (get_best_bid book));
                SubscribeTrades.write_double (Book.px (get_best_bid book))]
             else
               [SubscribeTrades.write_double 0;
                SubscribeTrades.write_double 0])
         ++ (if bool_decide (0 < length (Book.asks book)) then
               [SubscribeTrades.write_double
                  (Book.level_qty (get_best_ask book));
                SubscribeTrades.write_double (Book.px (get_best_ask book))]
             else
               [SubscribeTrades.write_double 0;
                SubscribeTrades.write_double 0]) |}.

(** The books signal fires once per book; each firing runs
    [on_book_update] with the clock reading of that moment. *)
Definition on_books (self : t) (ticks : list (float * Book.OrderBook)) : t :=
  foldl (λ s p, on_book_update s p.1 p.2) self ticks.

End BestOfBook.

End SubscribeOrderBook.

(** ** FeedHandlerMarketdataService *)

(** [Feed] objects are immutable; reading one follows its address. *)
Definition read_feed (a : addr) : M Feed :=
  λ w, match feed_objects w !! a with
       | Some f => (Ok f, w)
       | None => (Raise NoSuchObject, w)
       end.

(** [c.lower()] for a character of ASCII text. *)
Definition lower_ascii (c : ascii) : ascii :=
  let n := nat_of_ascii c in
  if (65 <=? n)%nat && (n <=? 90)%nat then ascii_of_nat (n + 32) else c.

(** [s.lower()] for ASCII text, which exchange codes are. [str.lower] is
    Unicode-aware; strings here are bytes, and on text with a character
    outside ASCII this function, which leaves such bytes as they are, is
    not [str.lower]. *)
Fixpoint lower (s : string) : string :=
  match s with
  | EmptyString => EmptyString
  | String c rest => String (lower_ascii c) (lower rest)
  end.

#[global] Instance ExchangeInstrument_eq_dec : EqDecision ExchangeInstrument.
Proof. solve_decision. Defined.

#[global] Instance ExchangeInstrument_countable : Countable ExchangeInstrument.
Proof.
  apply (inj_countable'
           (λ i, (exchange_code i, exchange_instrument_code i))
           (λ p, mkExchangeInstrument p.1 p.2)).
  by intros [].
Defined.

Module FeedHandlerMarketdataService.

(** The fields of the service that change: the set of instruments already
    announced, and the values scheduled on the [subscribed_instruments]
    signal, in order. Instruments come from the instrument cache, one
    object per exchange and symbol, so membership in the set is equality of
    the record. *)
Record t : Type := mk {
  instance_id : string;
  notified_instruments : gset ExchangeInstrument;
  subscribed_instruments : list ExchangeInstrument
}.

Definition __init__ (instance_id : string) : t :=
  {| instance_id := instance_id; notified_instruments := ∅;
     subscribed_instruments := [] |}.

Definition __get_feed_uri (self : t) (instrument : ExchangeInstrument)
    : string * t :=
  let self' :=
    if decide (instrument ∈ notified_instruments self) then self
    else {| instance_id := instance_id self;
            notified_instruments := notified_instruments self ∪ {[instrument]};
            subscribed_instruments :=
              subscribed_instruments self ++ [instrument] |} in
  let symbol := exchange_instrument_code instrument in
  (lower (exchange_code instrument) +:+ ":" +:+ instance_id self
     +:+ ":" +:+ symbol, self').

(** The three getters differ in the field of the [Feed] they return. *)
Definition get (field : Feed → signal) (self : t)
    (instrument : ExchangeInstrument) (w : World)
    : result signal * t * World :=
  let '(uri, self') := __get_feed_uri self instrument in
  let '(r, w') :=
    (a ← FeedHandlerRegistry.get_feed uri; f ← read_feed a;
     mret (field f)) w in
  (r, self', w').

Definition get_order_book_events := get order_book_events.
Definition get_order_books := get order_books.
Definition get_trades := get trades.

(** A request to the service: which stream, of which instrument. *)
Inductive Request : Type :=
| GetTrades (instrument : ExchangeInstrument)
| GetOrderBooks (instrument : ExchangeInstrument)
| GetOrderBookEvents (instrument : ExchangeInstrument).

Definition requested (r : Request) : ExchangeInstrument :=
  match r with
  | GetTrades i | GetOrderBooks i | GetOrderBookEvents i => i
  end.

(** The service and the store after a request, whether it returns or
    raises. *)
Definition serve (sw : t * World) (r : Request) : t * World :=
  let '(res, self', w') :=
    match r with
    | GetTrades i => get_trades sw.1 i sw.2
    | GetOrderBooks i => get_order_books sw.1 i sw.2
    | GetOrderBookEvents i => get_order_book_events sw.1 i sw.2
    end in
  (self', w').

End FeedHandlerMarketdataService.

(** ** ws_fh_main *)

Module ws_fh_main.

(** What an event connects once the handler is live: the journal it opens,
    named by the string given to [Path], and the signal whose values it
    journals. *)
Record Journaling : Type := mkJournaling {
  journal : string;
  source : signal
}.

Section JournalIO.

(** The constructor [Journal] and [Journal.create_appender], of
    [serenity.marketdata.tickstore.journal], are not among the sources:
    they are taken as they come. Each is given the journal's path and
    either returns or raises, as file operations do (a directory that
    cannot be created, a file that cannot be written). *)
Variables (Journal create_appender : string → result unit).

(** [SubscribeTrades.on_activate] and [SubscribeOrderBook.on_activate]:
    they differ in the directory suffix and in the field of the feed.
    [fh] is the handler [ws_fh_main] created; the result is what
    [on_activate] returns, with what it connected. *)
Definition on_activate (suffix : string) (field : Feed → signal)
    (fh : addr) (uri_scheme instance_id journal_path db : string)
    (trade_symbol : string) : M (bool * option Journaling) :=
  h ← read_handler fh;
  match state h with
  | LIVE =>
      feed ← FeedHandlerRegistry.get_feed
               (uri_scheme +:+ ":" +:+ instance_id +:+ ":" +:+ trade_symbol);
      f ← read_feed feed;
      let instrument_code := exchange_instrument_code (instrument f) in
      let path := journal_path +:+ "/" +:+ db +:+ suffix
                  +:+ instrument_code in
      lift (Journal path);;
      lift (create_appender path);;
      mret (false, Some {| journal := path; source := field f |})
  | _ => mret (false, None)
  end.

Definition SubscribeTrades_on_activate := on_activate "_TRADES/" trades.
Definition SubscribeOrderBook_on_activate := on_activate "_BOOKS/" order_books.

(** The events the loop of [ws_fh_main] connects to the state signal, in
    order: for every instrument the [include_symbol] admits, the book event
    when books are journaled, then the trade event. [true] marks a trade
    event. *)
Definition connected_events (instruments : list ExchangeInstrument)
    (include_symbol : string) (journal_books : bool)
    : list (bool * string) :=
  flat_map
    (λ i, let symbol := exchange_instrument_code i in
          if negb (String.eqb symbol include_symbol
                   || String.eqb include_symbol "*") then []
          else (if journal_books then [(false, symbol)] else [])
               ++ [(true, symbol)])
    instruments.

(** The state signal fires: every connected event is activated in turn.
    The result lists what the events returned and connected. *)
Fixpoint activate (events : list (bool * string)) (fh : addr)
    (uri_scheme instance_id journal_path db : string)
    : M (list (bool * option Journaling)) :=
  match events with
  | [] => mret []
  | (is_trade, symbol) :: rest =>
      r ← (if is_trade
           then SubscribeTrades_on_activate fh uri_scheme instance_id
                  journal_path db symbol
           else SubscribeOrderBook_on_activate fh uri_scheme instance_id
                  journal_path db symbol);
      rs ← activate rest fh uri_scheme instance_id journal_path db;
      mret (r :: rs)
  end.

End JournalIO.

End ws_fh_main.

(** ** Further statements *)

(** A raw level whose price and quantity [float()] converts. *)
Definition convertible_level (l : RawLevel) : Prop :=
  convertible (raw_px l) ∧
  match raw_level_qty l with
  | Int z => convertible z
  | Float _ => True
  end.

(** The level a raw level decodes to, for a price scale. *)
Definition decoded_level (price_scale : N) (l : RawLevel) : Book.BookLevel :=
  {| Book.px := (Z2float (raw_px l) / Z2float (10 ^ Z.of_N price_scale))%float;
     Book.level_qty :=
       match raw_level_qty l with Int z => Z2float z | Float f => f end |}.

(** The store with one more entry in the registry's cache. *)
Definition cached (w : World) (uri : string) (feed : addr) : World :=
  {| handlers := handlers w; feed_objects := feed_objects w;
     signals := signals w;
     registry := {| fh_registry := fh_registry (registry w);
                    feeds := <[uri := feed]> (feeds (registry w)) |};
     trace := trace w |}.

(** The store with one more log line. *)
Definition logged (w : World) (msg : string) : World :=
  {| handlers := handlers w; feed_objects := feed_objects w;
     signals := signals w; registry := registry w;
     trace := trace w ++ [LogInfo msg] |}.

(** The instrument the handler discovers for a product. *)
Definition instrument_of (p : PhemexFeedHandler.Product) : ExchangeInstrument :=
  PhemexFeedHandler.get_or_create_exchange_instrument
    (PhemexFeedHandler.symbol p) "PHEMEX".

(** The exception of a failed conversion to [float]. *)
Definition float_overflow_error : exn :=
  OverflowError "int too large to convert to float".

(** Every entry of the registry's cache names a [Feed] object. *)
Definition cache_valid (w : World) : Prop :=
  ∀ uri a, feeds (registry w) !! uri = Some a → is_Some (feed_objects w !! a).

(** A computation that leaves a component of the store as it is. *)
Definition keeps {A X} (f : World → X) (m : M A) : Prop :=
  ∀ w, f (m w).2 = f w.

(** The service has announced exactly the instruments on its signal, each
    once. *)
Definition announced_once (self : FeedHandlerMarketdataService.t) : Prop :=
  NoDup (FeedHandlerMarketdataService.subscribed_instruments self)
  ∧ ∀ i, i ∈ FeedHandlerMarketdataService.notified_instruments self
         ↔ i ∈ FeedHandlerMarketdataService.subscribed_instruments self.

(** The store after the steps of [ws_fh_main] up to the start of the
    handler: construction, registration, [start()]. *)
Definition main_world (products : list PhemexFeedHandler.Product)
    (include_symbol instance_id : string) (w : World) : World :=
  calls w [CallNew products include_symbol instance_id;
           CallRegister (length (handlers w));
           CallStart (length (handlers w))].

(** Every entry of the registry's cache is a URI of the handler for a
    symbol it has discovered and subscribed, and names the [Feed] object
    with the handler's signals for that symbol. *)
Definition live_cache (fh : FeedHandler) (w : World) : Prop :=
  ∀ uri a, feeds (registry w) !! uri = Some a →
    ∃ symbol i t e b,
      uri = feed_uri (uri_scheme fh) (instance_id fh) symbol
      ∧ known_instrument_ids fh !! symbol = Some i
      ∧ subscribed fh i t e b
      ∧ feed_objects w !! a = Some (mkFeed i t e b).

(** The path of the journal a connected event opens. *)
Definition journal_of (journal_path db : string) (event : bool * string)
    : string :=
  journal_path +:+ "/" +:+ db
  +:+ (if event.1 then "_TRADES/" else "_BOOKS/") +:+ event.2.

(** Opening the journal at [path] raises [e]: in the constructor, or in
    [create_appender] after the constructor has returned. *)
Definition journal_fault (Journal create_appender : string → result unit)
    (path : string) (e : exn) : Prop :=
  Journal path = Raise e
  ∨ (Journal path = Ok tt ∧ create_appender path = Raise e).

(** What a connected event returns and connects at go-live: [False], and
    the journal of its kind and symbol on the handler's signal of that kind
    and symbol. *)
Definition connects (fh : FeedHandler) (journal_path db : string)
    (event : bool * string) (r : bool * option ws_fh_main.Journaling)
    : Prop :=
  r.1 = false
  ∧ ∃ sg,
      (if event.1 then instrument_trades fh else instrument_order_books fh)
        !! event.2 = Some sg
      ∧ r.2 = Some {| ws_fh_main.journal :=
                        journal_path +:+ "/" +:+ db
                        +:+ (if event.1 then "_TRADES/" else "_BOOKS/")
                        +:+ event.2;
                      ws_fh_main.source := sg |}.

(** * Properties *)

(** ** Python values *)

Lemma rbind_Ok {A B} (a : A) (k : A → result B) : (Ok a ≫= k) = k a.
Proof. reflexivity. Qed.

Lemma float_of_int_convertible z :
  convertible z → float_of_int z = Ok (Z2float z).
Proof.
  unfold convertible, float_of_int. intros Hz.
  destruct (Z.leb_spec float_overflow (Z.abs z)) as [Hle|_]; [lia | done].
Qed.

Lemma float_convertible x :
  match x with Int z => convertible z | Float _ => True end →
  float_ x = Ok (match x with Int z => Z2float z | Float f => f end).
Proof. destruct x; simpl; [apply float_of_int_convertible | done]. Qed.

Lemma div_pow10_convertible x n :
  convertible (10 ^ Z.of_N n) →
  div_pow10 x n = Ok (x / Z2float (10 ^ Z.of_N n))%float.
Proof.
  intros Hn. unfold div_pow10. by rewrite (float_of_int_convertible _ Hn).
Qed.

(** The bound of [float_of_int] is the first integer that rounds to
    infinity. *)
Lemma float_overflow_sharp :
  Z2float float_overflow = infinity ∧
  Z2float (float_overflow - 1) = 0x1.fffffffffffffp+1023%float.
Proof. split; vm_compute; reflexivity. Qed.

Lemma split_no_sep sep s : contains sep s = false → split sep s = [s].
Proof.
  induction s as [|c s IH]; simpl; [done|].
  intros [Hc Hs]%orb_false_elim. rewrite Hc, (IH Hs). done.
Qed.

Lemma split_app_sep sep a rest :
  contains sep a = false →
  split sep (a +:+ String sep rest) = a :: split sep rest.
Proof.
  induction a as [|c a IH]; simpl.
  - intros _. by rewrite Ascii.eqb_refl.
  - intros [Hc Ha]%orb_false_elim. rewrite Hc, (IH Ha). done.
Qed.

Lemma split_feed_uri scheme instance symbol :
  no_colon scheme → no_colon instance → no_colon symbol →
  split ":" (feed_uri scheme instance symbol) = [scheme; instance; symbol].
Proof.
  unfold no_colon, feed_uri. intros Hs Hi Hx.
  change (":" +:+ ?r) with (String ":" r).
  rewrite (split_app_sep _ _ _ Hs).
  change (":" +:+ ?r) with (String ":" r).
  rewrite (split_app_sep _ _ _ Hi), (split_no_sep _ _ Hx). done.
Qed.

(** ** The exchange message normalizer *)

Section Normalizer.

Variables (instrument : ExchangeInstrument) (price_scale : N).
Hypothesis scale_ok : convertible (10 ^ Z.of_N price_scale).

Lemma extract_trades_loop_decoded raw trade_list :
  Forall convertible_trade raw →
  extract_trades_loop instrument price_scale raw trade_list
  = Ok (trade_list ++ map (decoded instrument price_scale) raw).
Proof using scale_ok.
  intros Hraw. revert trade_list.
  induction Hraw as [|t raw [Hp Hq] _ IH]; intros trade_list; simpl.
  - by rewrite app_nil_r.
  - rewrite (float_of_int_convertible _ Hp), rbind_Ok.
    rewrite (div_pow10_convertible _ _ scale_ok), rbind_Ok.
    rewrite (float_convertible _ Hq), rbind_Ok.
    rewrite IH, <- app_assoc. done.
Qed.

Lemma extract_trades_decoded self symbol mtype raw :
  known_instrument_ids self !! symbol = Some instrument →
  price_scaling self !! symbol = Some price_scale →
  Forall convertible_trade raw →
  __extract_trades self (mkMessage mtype (Some symbol) (Some raw))
  = Ok (map (decoded instrument price_scale) raw).
Proof using scale_ok.
  intros Hk Hs Hraw. unfold __extract_trades, getitem; cbn.
  rewrite Hk; cbn. rewrite Hs; cbn.
  by rewrite extract_trades_loop_decoded.
Qed.

End Normalizer.



(** C10: for every message of a discovered symbol whose numbers convert to
    [float], whatever the side strings are, extraction returns a trade for
    each raw tuple, whose side is BUY exactly when the tuple's side string
    is "Buy" and SELL for every other string. *)
Theorem trade_side_buy_iff_Buy :
  ∀ self symbol instrument price_scale mtype raw,
    known_instrument_ids self !! symbol = Some instrument →
    price_scaling self !! symbol = Some price_scale →
    convertible (10 ^ Z.of_N price_scale) →
    Forall convertible_trade raw →
    ∃ ts, __extract_trades self (mkMessage mtype (Some symbol) (Some raw))
          = Ok ts
          ∧ ∀ i t, raw !! i = Some t →
              ∃ tr, ts !! i = Some tr
                    ∧ (side tr = BUY ↔ raw_side t = "Buy")
                    ∧ (raw_side t ≠ "Buy" → side tr = SELL).
Proof.
  intros self symbol instrument price_scale mtype raw Hk Hs Hscale Hraw.
  eexists. split; [by apply extract_trades_decoded|].
  intros i t Hi. eexists. split; [by rewrite list_lookup_fmap, Hi|].
  simpl. destruct (String.eqb_spec (raw_side t) "Buy") as [->|Hne]; split;
    try done; by split.
Qed.

Lemma trade_side_buy_iff_Buy_witness :
  ∃ ts, __extract_trades (Example.handler_of Example.constructed)
          (mkMessage (Some "incremental") (Some "BTCUSD")
             (Some [mkRawTrade 1 "Buy" 3427800 (Int 3);
                    mkRawTrade 2 "Sell" 3427900 (Int 1);
                    mkRawTrade 3 "buy" 3427900 (Float 0.5)])) = Ok ts
        ∧ ∀ i t, [mkRawTrade 1 "Buy" 3427800 (Int 3);
                  mkRawTrade 2 "Sell" 3427900 (Int 1);
                  mkRawTrade 3 "buy" 3427900 (Float 0.5)] !! i = Some t →
            ∃ tr, ts !! i = Some tr
                  ∧ (side tr = BUY ↔ raw_side t = "Buy")
                  ∧ (raw_side t ≠ "Buy" → side tr = SELL).
Proof.
  apply (trade_side_buy_iff_Buy (Example.handler_of Example.constructed)
           "BTCUSD" Example.BTCUSD 4%N).
  - vm_compute; reflexivity.
  - vm_compute; reflexivity.
  - vm_compute; reflexivity.
  - repeat constructor; vm_compute; reflexivity.
Defined.

(** ** Journaling trades *)

Section Journal.

Import SubscribeTrades.

Lemma on_trade_print_appends self utcnow trade :
  appender (on_trade_print self utcnow trade)
  = appender self ++ spec_trade_record utcnow trade.
Proof.
  unfold on_trade_print, spec_trade_record; simpl.
  by destruct (side trade).
Qed.

Lemma spec_trade_record_length utcnow trade :
  length (spec_trade_record utcnow trade) = 7.
Proof. reflexivity. Qed.

(** C8: the journal after a run of trade prints is the journal before it
    followed by one record per trade, in order; each record is the
    float64 timestamp, the int64 trade id twice, the length-prefixed
    instrument code, the int16 side flag (1 for BUY, 0 for SELL), the
    float64 quantity and the float64 price, so the journal grows by seven
    fields per trade. *)
Theorem trade_journal_record (self : SubscribeTrades.t)
    (prints : list (float * Trade)) :
  appender (on_trades self prints)
  = appender self ++ concat (map (λ p, spec_trade_record p.1 p.2) prints)
  ∧ length (appender (on_trades self prints))
    = length (appender self) + 7 * length prints
  ∧ trade_counter (on_trades self prints)
    = trade_counter self + length prints.
Proof.
  revert self. induction prints as [|[utcnow trade] prints IH]; intros self.
  - simpl. rewrite app_nil_r. split; [done | split; lia].
  - destruct (IH (on_trade_print self utcnow trade)) as (Ha & Hl & Hc).
    change (on_trades self ((utcnow, trade) :: prints))
      with (on_trades (on_trade_print self utcnow trade) prints).
    rewrite Hl, Hc, Ha, !on_trade_print_appends, length_app.
    rewrite spec_trade_record_length. simpl.
    rewrite <- app_assoc. split; [done | split; lia].
Qed.

End Journal.

(** ** OrderBookBuilder *)

Section OrderBookBuilder.

Import Book.

Lemma call_snapshot self instrument bids asks seq_num :
  _call self (Some (OrderBookSnapshot instrument bids asks seq_num))
  = {| order_book := mkOrderBook bids asks;
       value := Some (mkOrderBook bids asks) |}.
Proof. reflexivity. Qed.

Lemma run_app self events events' :
  run self (events ++ events') = run (run self events) events'.
Proof. apply foldl_app. Qed.

(** The book model on the scenario of the specification: a snapshot with
    bid 100.0 x 5 and ask 101.0 x 3, then an update removing the bid and
    adding the ask 101.5 x 2. *)
Example book_scenario :
  let i := Example.BTCUSD in
  order_book
    (run __init__
       [OrderBookSnapshot i [mkBookLevel 100 5] [mkBookLevel 101 3] 1;
        OrderBookUpdate i [mkBookLevel 100 0] [mkBookLevel 101.5 2] 2])
  = mkOrderBook [] [mkBookLevel 101 3; mkBookLevel 101.5 2].
Proof. vm_compute. reflexivity. Qed.

(** C2: whatever state the builder is in and whatever snapshot and update
    events it then receives, a snapshot event leaves a book whose bids and
    asks are exactly the snapshot's levels, and the builder and its signal
    are determined by the snapshot alone. *)
Theorem snapshot_replaces_book (self : OrderBookBuilder)
    (prior : list OrderBookEvent) (instrument : ExchangeInstrument)
    (snapshot_bids snapshot_asks : list BookLevel) (seq_num : Z) :
  let after :=
    run self
      (prior ++
       [OrderBookSnapshot instrument snapshot_bids snapshot_asks seq_num]) in
  bids (order_book after) = snapshot_bids
  ∧ asks (order_book after) = snapshot_asks
  ∧ value after = Some (order_book after)
  ∧ after = run __init__
              [OrderBookSnapshot instrument snapshot_bids snapshot_asks
                 seq_num].
Proof.
  intros after. subst after. rewrite run_app.
  generalize (run self prior). intros b.
  change (run b [?e]) with (_call b (Some e)).
  rewrite call_snapshot. by repeat split.
Qed.

End OrderBookBuilder.

(** ** The message pipeline *)



(** ** The store monad *)

Lemma bind_eq {A B} (m : M A) (k : A → M B) (w : World) :
  (m ≫= k) w
  = match m w with
    | (Ok a, w') => k a w'
    | (Raise e, w') => (Raise e, w')
    end.
Proof. reflexivity. Qed.

Lemma bind_lift_Ok {A B} (a : A) (k : A → M B) (w : World) :
  (lift (Ok a) ≫= k) w = k a w.
Proof. reflexivity. Qed.

(** ** WebsocketFeedHandler.get_feed *)

Section HandlerGetFeed.

Variables (self : FeedHandler) (w : World).
Variables (scheme instance symbol : string).
Hypotheses (Hscheme : no_colon scheme) (Hinstance : no_colon instance)
           (Hsymbol : no_colon symbol).

Local Abbreviation uri := (feed_uri scheme instance symbol).

Lemma get_feed_subscribed i t e b :
  scheme = uri_scheme self → instance = instance_id self →
  known_instrument_ids self !! symbol = Some i →
  subscribed self i t e b →
  WebsocketFeedHandler.get_feed self uri w
  = (Ok (length (feed_objects w)), acquired w uri (mkFeed i t e b)).
Proof using Hscheme Hinstance Hsymbol.
  intros -> -> Hk (Ht & He & Hb).
  unfold WebsocketFeedHandler.get_feed.
  rewrite split_feed_uri by done. cbn [unpack3].
  rewrite bind_lift_Ok, !String.eqb_refl; cbn -[append].
  rewrite Hk. unfold PhemexFeedHandler._create_feed, getitem.
  rewrite Ht, He, Hb. reflexivity.
Qed.

Lemma get_feed_raises_iff :
  raises (WebsocketFeedHandler.get_feed self uri w).1
  ↔ (scheme ≠ uri_scheme self ∨ instance ≠ instance_id self
     ∨ known_instrument_ids self !! symbol = None
     ∨ ∃ i, known_instrument_ids self !! symbol = Some i
            ∧ ¬ ∃ t e b, subscribed self i t e b).
Proof using Hscheme Hinstance Hsymbol.
  destruct (String.eqb_spec scheme (uri_scheme self)) as [Hs|Hs]; cycle 1.
  { unfold WebsocketFeedHandler.get_feed.
    rewrite split_feed_uri by done. cbn [unpack3]. rewrite bind_lift_Ok.
    apply String.eqb_neq in Hs as Hs'. rewrite Hs'. cbn. tauto. }
  destruct (String.eqb_spec instance (instance_id self)) as [Hi|Hi]; cycle 1.
  { unfold WebsocketFeedHandler.get_feed.
    rewrite split_feed_uri by done. cbn [unpack3]. rewrite bind_lift_Ok.
    apply String.eqb_neq in Hi as Hi'. rewrite Hs, String.eqb_refl, Hi'.
    cbn. tauto. }
  destruct (known_instrument_ids self !! symbol) as [i|] eqn:Hk; cycle 1.
  { unfold WebsocketFeedHandler.get_feed.
    rewrite split_feed_uri by done. cbn [unpack3]. rewrite bind_lift_Ok.
    rewrite Hs, Hi, !String.eqb_refl, Hk. cbn. tauto. }
  destruct (instrument_trades self !! exchange_instrument_code i)
    as [t|] eqn:Ht;
  [destruct (instrument_order_book_events self
               !! exchange_instrument_code i) as [e|] eqn:He;
   [destruct (instrument_order_books self !! exchange_instrument_code i)
      as [b|] eqn:Hb|]|].
  - rewrite (get_feed_subscribed i t e b) by done. cbn.
    split; [done|]. intros [?|[?|[?|(i' & [= <-] & Hn)]]]; try done.
    apply Hn. by exists t, e, b.
  - assert (Hr : raises (WebsocketFeedHandler.get_feed self uri w).1).
    { unfold WebsocketFeedHandler.get_feed.
      rewrite split_feed_uri by done. cbn [unpack3]. rewrite bind_lift_Ok.
      rewrite Hs, Hi, !String.eqb_refl, Hk; cbn -[append].
      unfold PhemexFeedHandler._create_feed, getitem.
      by rewrite Ht, He, Hb. }
    split; [|done]. intros _. do 3 right. exists i. split; [done|].
    intros (t' & e' & b' & _ & _ & Hb'). congruence.
  - assert (Hr : raises (WebsocketFeedHandler.get_feed self uri w).1).
    { unfold WebsocketFeedHandler.get_feed.
      rewrite split_feed_uri by done. cbn [unpack3]. rewrite bind_lift_Ok.
      rewrite Hs, Hi, !String.eqb_refl, Hk; cbn -[append].
      unfold PhemexFeedHandler._create_feed, getitem.
      by rewrite Ht, He. }
    split; [|done]. intros _. do 3 right. exists i. split; [done|].
    intros (t' & e' & b' & _ & He' & _). congruence.
  - assert (Hr : raises (WebsocketFeedHandler.get_feed self uri w).1).
    { unfold WebsocketFeedHandler.get_feed.
      rewrite split_feed_uri by done. cbn [unpack3]. rewrite bind_lift_Ok.
      rewrite Hs, Hi, !String.eqb_refl, Hk; cbn -[append].
      unfold PhemexFeedHandler._create_feed, getitem.
      by rewrite Ht. }
    split; [|done]. intros _. do 3 right. exists i. split; [done|].
    intros (t' & e' & b' & Ht' & _ & _). congruence.
Qed.

End HandlerGetFeed.

(** C4, as stated, fails: on a handler that has discovered BTCUSD and has
    not been started, [get_feed] of a URI with the handler's scheme and
    instance and the discovered symbol raises. *)
Lemma get_feed_raises_though_addressed : ¬ get_feed_raises_iff_not_addressed.
Proof.
  intros H.
  destruct (H (Example.handler_of Example.constructed) Example.constructed
              "phemex" "prod" "BTCUSD" eq_refl eq_refl eq_refl) as [H1 _].
  destruct H1 as [Hs|[Hi|Hk]].
  - vm_compute. exact I.
  - by apply Hs.
  - by apply Hi.
  - vm_compute in Hk. discriminate Hk.
Qed.

(** C4, amended: for a URI scheme:instance:symbol, [get_feed] of a handler
    raises exactly when the scheme is not the handler's, or the instance is
    not the handler's, or the symbol was not discovered, or the signals of
    the discovered instrument have not been created by
    [_subscribe_trades_and_quotes]; otherwise it returns a new [Feed] for
    that instrument. *)
Theorem get_feed_raises_iff_not_subscribed (self : FeedHandler) (w : World)
    (scheme instance symbol : string) :
  no_colon scheme → no_colon instance → no_colon symbol →
  (raises (WebsocketFeedHandler.get_feed self
             (feed_uri scheme instance symbol) w).1
   ↔ (scheme ≠ uri_scheme self ∨ instance ≠ instance_id self
      ∨ known_instrument_ids self !! symbol = None
      ∨ ∃ i, known_instrument_ids self !! symbol = Some i
             ∧ ¬ ∃ t e b, subscribed self i t e b))
  ∧ ∀ i t e b,
      scheme = uri_scheme self → instance = instance_id self →
      known_instrument_ids self !! symbol = Some i →
      subscribed self i t e b →
      WebsocketFeedHandler.get_feed self (feed_uri scheme instance symbol) w
      = (Ok (length (feed_objects w)),
         acquired w (feed_uri scheme instance symbol) (mkFeed i t e b)).
Proof.
  intros Hs Hi Hx. split.
  - by apply get_feed_raises_iff.
  - intros i t e b. by apply get_feed_subscribed.
Qed.

Lemma get_feed_raises_iff_not_subscribed_witness :
  let self := Example.handler_of Example.live in
  ¬ raises (WebsocketFeedHandler.get_feed self Example.uri Example.live).1
  ∧ raises (WebsocketFeedHandler.get_feed self "phemex:test:BTCUSD"
              Example.live).1
  ∧ WebsocketFeedHandler.get_feed self Example.uri Example.live
    = (Ok 0, acquired Example.live Example.uri (mkFeed Example.BTCUSD 0 1 2)).
Proof.
  intros self.
  destruct (get_feed_raises_iff_not_subscribed self Example.live
              "phemex" "prod" "BTCUSD" eq_refl eq_refl eq_refl) as [H1 H2].
  destruct (get_feed_raises_iff_not_subscribed self Example.live
              "phemex" "test" "BTCUSD" eq_refl eq_refl eq_refl) as [H3 _].
  split; [|split].
  - vm_compute. exact id.
  - apply H3. right; left. vm_compute. discriminate.
  - apply (H2 Example.BTCUSD 0 1 2); try (vm_compute; reflexivity).
    repeat split; vm_compute; reflexivity.
Defined.

(** ** Feed objects of repeated handler calls *)





(** ** Computations that leave the registry alone *)

Lemma keeps_registry_bind {A B} (m : M A) (k : A → M B) :
  keeps_registry m → (∀ a, keeps_registry (k a)) → keeps_registry (m ≫= k).
Proof.
  intros Hm Hk w. rewrite bind_eq. specialize (Hm w).
  destruct (m w) as [[a|e] w1]; simpl in *; [|done].
  by rewrite Hk.
Qed.

Lemma keeps_registry_ret {A} (a : A) : keeps_registry (mret a).
Proof. by intros w. Qed.

Lemma keeps_registry_raise {A} (e : exn) : keeps_registry (@raise A e).
Proof. by intros w. Qed.

Lemma keeps_registry_lift {A} (r : result A) : keeps_registry (lift r).
Proof. by intros w. Qed.

Lemma keeps_registry_emit e : keeps_registry (emit e).
Proof. by intros w. Qed.

Lemma keeps_registry_new_signal : keeps_registry new_signal.
Proof. by intros w. Qed.

Lemma keeps_registry_new_Feed f : keeps_registry (new_Feed f).
Proof. by intros w. Qed.

Lemma keeps_registry_new_FeedHandler fh : keeps_registry (new_FeedHandler fh).
Proof. by intros w. Qed.

Lemma keeps_registry_read_handler a : keeps_registry (read_handler a).
Proof. intros w. unfold read_handler. by destruct (handlers w !! a). Qed.

Lemma keeps_registry_update_handler a f : keeps_registry (update_handler a f).
Proof. intros w. unfold update_handler. by destruct (handlers w !! a). Qed.

Lemma keeps_registry_for_each {A} (xs : list A) (body : A → M unit) :
  (∀ x, keeps_registry (body x)) → keeps_registry (for_each xs body).
Proof.
  intros Hbody. induction xs as [|x xs IH]; simpl.
  - apply keeps_registry_ret.
  - by apply keeps_registry_bind.
Qed.

Create HintDb keeps discriminated.
#[local] Hint Resolve keeps_registry_ret keeps_registry_raise
  keeps_registry_lift keeps_registry_emit keeps_registry_new_signal
  keeps_registry_new_Feed keeps_registry_new_FeedHandler
  keeps_registry_read_handler keeps_registry_update_handler : keeps.

Ltac keeps :=
  repeat first
    [ progress auto with keeps
    | apply keeps_registry_bind; [|intros ?]
    | apply keeps_registry_for_each; intros ?
    | match goal with
      | |- keeps_registry (if ?c then _ else _) => destruct c
      | |- keeps_registry (match ?x with _ => _ end) => destruct x
      end ].

Lemma keeps_registry_schedule_state a s : keeps_registry (schedule_state a s).
Proof. unfold schedule_state. keeps. Qed.

Lemma keeps_registry_start a : keeps_registry (WebsocketFeedHandler.start a).
Proof.
  unfold WebsocketFeedHandler.start,
    PhemexFeedHandler._subscribe_trades_and_quotes,
    PhemexFeedHandler.subscribe_instrument, schedule_state.
  keeps.
Qed.

Lemma keeps_registry_handler_get_feed self uri :
  keeps_registry (WebsocketFeedHandler.get_feed self uri).
Proof.
  unfold WebsocketFeedHandler.get_feed, PhemexFeedHandler._create_feed,
    logger_info.
  keeps.
Qed.

Lemma keeps_registry_init products include_symbol instance_id :
  keeps_registry
    (PhemexFeedHandler.__init__ products include_symbol instance_id).
Proof. unfold PhemexFeedHandler.__init__. keeps. Qed.

(** ** FeedHandlerRegistry *)

Lemma registry_get_feed_cached uri w a :
  feeds (registry w) !! uri = Some a →
  FeedHandlerRegistry.get_feed uri w = (Ok a, w).
Proof.
  intros H. unfold FeedHandlerRegistry.get_feed.
  rewrite bind_eq. cbn [read_registry]. by rewrite H.
Qed.

(** What a call of the registry's [get_feed] for a URI not in the cache
    does to the registry: on success the URI is cached, a handler being
    registered for it; on an exception nothing changes. *)
Lemma registry_get_feed_uncached uri w :
  feeds (registry w) !! uri = None →
  match FeedHandlerRegistry.get_feed uri w with
  | (Ok a, w') =>
      registry w' = {| fh_registry := fh_registry (registry w);
                       feeds := <[uri := a]> (feeds (registry w)) |}
      ∧ ∃ scheme instance symbol,
          split ":" uri = [scheme; instance; symbol]
          ∧ is_Some (fh_registry (registry w)
                       !! (scheme +:+ ":" +:+ instance))
  | (Raise e, w') => registry w' = registry w
  end.
Proof.
  intros H. unfold FeedHandlerRegistry.get_feed.
  rewrite bind_eq. cbn [read_registry]. rewrite H.
  destruct (split ":" uri) as [|scheme [|instance [|symbol [|? ?]]]];
    try done.
  cbn [unpack3]. rewrite bind_lift_Ok. cbn beta iota.
  unfold getitem.
  destruct (fh_registry (registry w) !! (scheme +:+ ":" +:+ instance))
    as [fh|] eqn:Hfh; [|done].
  rewrite bind_lift_Ok, bind_eq. unfold read_handler.
  destruct (handlers w !! fh) as [h|]; [|done].
  rewrite bind_eq.
  pose proof (keeps_registry_handler_get_feed h uri w) as Hreg.
  destruct (WebsocketFeedHandler.get_feed h uri w) as [[a|e] w1];
    simpl in Hreg; [|done].
  unfold mbind, M_bind, bind, read_registry, write_registry, mret, M_ret, ret;
    simpl. rewrite Hreg. split; [done|].
  exists scheme, instance, symbol. by rewrite Hfh.
Qed.

Lemma registry_get_feed_caches uri w a w' :
  FeedHandlerRegistry.get_feed uri w = (Ok a, w') →
  feeds (registry w') !! uri = Some a.
Proof.
  intros Hget. destruct (feeds (registry w) !! uri) as [a'|] eqn:Hc.
  - rewrite (registry_get_feed_cached _ _ _ Hc) in Hget. by simplify_eq.
  - pose proof (registry_get_feed_uncached uri w Hc) as Hu.
    rewrite Hget in Hu. destruct Hu as [-> _]. simpl.
    apply lookup_insert_eq.
Qed.

Lemma register_registry a w :
  registry (FeedHandlerRegistry.register a w).2 = registry w
  ∨ ∃ key, registry (FeedHandlerRegistry.register a w).2
           = {| fh_registry := <[key := a]> (fh_registry (registry w));
                feeds := feeds (registry w) |}.
Proof.
  unfold FeedHandlerRegistry.register. rewrite bind_eq. unfold read_handler.
  destruct (handlers w !! a) as [fh|]; [|by left].
  right. by eexists.
Qed.

(** An entry of the cache outlives every call. *)
Lemma call_keeps_cached uri a w c :
  feeds (registry w) !! uri = Some a →
  feeds (registry (call w c)) !! uri = Some a.
Proof.
  intros H. destruct c as [products inc inst|fh|fh|uri'|fh uri']; unfold call.
  - by rewrite keeps_registry_init.
  - by rewrite keeps_registry_start.
  - by destruct (register_registry fh w) as [->|[key ->]].
  - destruct (feeds (registry w) !! uri') as [a'|] eqn:Hc.
    + by rewrite (registry_get_feed_cached _ _ _ Hc).
    + pose proof (registry_get_feed_uncached uri' w Hc) as Hu.
      destruct (FeedHandlerRegistry.get_feed uri' w) as [[a'|e] w'].
      * simpl. destruct Hu as [-> _]. simpl.
        rewrite lookup_insert_ne; [done|]. intros <-. congruence.
      * simpl. by rewrite Hu.
  - rewrite (keeps_registry_bind (read_handler fh)
               (λ h, WebsocketFeedHandler.get_feed h uri')); [done|..].
    + apply keeps_registry_read_handler.
    + intros h. apply keeps_registry_handler_get_feed.
Qed.

Lemma calls_keep_cached uri a w cs :
  feeds (registry w) !! uri = Some a →
  feeds (registry (calls w cs)) !! uri = Some a.
Proof.
  revert w. induction cs as [|c cs IH]; intros w H; simpl; [done|].
  apply IH. by apply call_keeps_cached.
Qed.

Lemma cache_addressed_empty : cache_addressed empty_registry.
Proof. intros uri a H. simpl in H. by rewrite lookup_empty in H. Qed.

Lemma call_keeps_cache_addressed w c :
  cache_addressed (registry w) → cache_addressed (registry (call w c)).
Proof.
  intros Hinv. destruct c as [products inc inst|fh|fh|uri'|fh uri'];
    unfold call.
  - by rewrite keeps_registry_init.
  - by rewrite keeps_registry_start.
  - destruct (register_registry fh w) as [->|[key ->]]; [done|].
    intros uri a Hc. destruct (Hinv uri a Hc) as (s & i & x & Hsplit & Hreg).
    exists s, i, x. split; [done|]. simpl.
    rewrite lookup_insert_is_Some.
    destruct (decide (key = s +:+ ":" +:+ i)); [by left | by right].
  - destruct (feeds (registry w) !! uri') as [a'|] eqn:Hc.
    + by rewrite (registry_get_feed_cached _ _ _ Hc).
    + pose proof (registry_get_feed_uncached uri' w Hc) as Hu.
      destruct (FeedHandlerRegistry.get_feed uri' w) as [[a'|e] w'];
        simpl; [|by rewrite Hu].
      destruct Hu as [-> Hnew]. intros uri a. simpl.
      destruct (decide (uri' = uri)) as [->|Hne].
      * intros _. done.
      * rewrite lookup_insert_ne by done. apply Hinv.
  - rewrite (keeps_registry_bind (read_handler fh)
               (λ h, WebsocketFeedHandler.get_feed h uri')); [done|..].
    + apply keeps_registry_read_handler.
    + intros h. apply keeps_registry_handler_get_feed.
Qed.

Lemma calls_keep_cache_addressed w cs :
  cache_addressed (registry w) → cache_addressed (registry (calls w cs)).
Proof.
  revert w. induction cs as [|c cs IH]; intros w H; simpl; [done|].
  apply IH. by apply call_keeps_cache_addressed.
Qed.

(** C5: in the store any run of calls leaves, starting with nothing
    registered, the registry's [get_feed] of a URI whose scheme:instance
    has no registered handler raises and changes nothing: no [Feed] is
    returned or cached. For a URI of three parts the exception is the
    [KeyError] of the lookup under scheme:instance. *)
Theorem registry_get_feed_unregistered (cs : list Call) (uri : string) :
  let w := calls empty_world cs in
  (∀ scheme instance symbol,
     split ":" uri = [scheme; instance; symbol] →
     fh_registry (registry w) !! (scheme +:+ ":" +:+ instance) = None) →
  (∃ e, FeedHandlerRegistry.get_feed uri w = (Raise e, w))
  ∧ ∀ scheme instance symbol,
      split ":" uri = [scheme; instance; symbol] →
      FeedHandlerRegistry.get_feed uri w
      = (Raise (KeyError (scheme +:+ ":" +:+ instance)), w).
Proof.
  intros w Hnone.
  assert (Hc : feeds (registry w) !! uri = None).
  { destruct (feeds (registry w) !! uri) as [a|] eqn:Hc; [|done].
    destruct (calls_keep_cache_addressed empty_world cs
                cache_addressed_empty uri a Hc) as (s & i & x & Hs & Hreg).
    fold w in Hreg. rewrite (Hnone s i x Hs) in Hreg. by destruct Hreg. }
  assert (Hget : ∀ scheme instance symbol,
            split ":" uri = [scheme; instance; symbol] →
            FeedHandlerRegistry.get_feed uri w
            = (Raise (KeyError (scheme +:+ ":" +:+ instance)), w)).
  { intros s i x Hs. unfold FeedHandlerRegistry.get_feed.
    rewrite bind_eq. cbn [read_registry]. rewrite Hc, Hs.
    cbn [unpack3]. rewrite bind_lift_Ok. cbn beta iota.
    unfold getitem. by rewrite (Hnone s i x Hs). }
  split; [|done].
  destruct (split ":" uri) as [|s [|i [|x [|? ?]]]] eqn:Hs;
    try (eexists; unfold FeedHandlerRegistry.get_feed;
         rewrite bind_eq; cbn [read_registry]; rewrite Hc, Hs; reflexivity).
  eexists. by apply (Hget s i x).
Qed.

Lemma registry_get_feed_unregistered_witness :
  let w := calls empty_world
             [CallNew Example.products "*" "prod"; CallRegister 0;
              CallStart 0; CallGetFeed Example.uri] in
  (∃ e, FeedHandlerRegistry.get_feed "kraken:prod:XBTUSD" w = (Raise e, w))
  ∧ ∀ scheme instance symbol,
      split ":" "kraken:prod:XBTUSD" = [scheme; instance; symbol] →
      FeedHandlerRegistry.get_feed "kraken:prod:XBTUSD" w
      = (Raise (KeyError (scheme +:+ ":" +:+ instance)), w).
Proof.
  apply (registry_get_feed_unregistered
           [CallNew Example.products "*" "prod"; CallRegister 0;
            CallStart 0; CallGetFeed Example.uri] "kraken:prod:XBTUSD").
  intros scheme instance symbol Hs. vm_compute in Hs.
  injection Hs as <- <- <-. vm_compute. reflexivity.
Defined.

(** ** The lifecycle *)

Lemma update_handler_Some a f w fh :
  handlers w !! a = Some fh →
  update_handler a f w
  = (Ok tt, {| handlers := <[a := f fh]> (handlers w);
               feed_objects := feed_objects w; signals := signals w;
               registry := registry w; trace := trace w |}).
Proof. intros H. unfold update_handler. by rewrite H. Qed.

Lemma schedule_state_Some a s w fh :
  handlers w !! a = Some fh →
  schedule_state a s w
  = (Ok tt, {| handlers := <[a := set_state s fh]> (handlers w);
               feed_objects := feed_objects w; signals := signals w;
               registry := registry w;
               trace := trace w ++ [ScheduleState a s] |}).
Proof.
  intros H. unfold schedule_state.
  rewrite bind_eq, (update_handler_Some _ _ _ _ H). reflexivity.
Qed.

Lemma subscribe_instrument_run a inc i w fh :
  handlers w !! a = Some fh →
  ∃ w',
    PhemexFeedHandler.subscribe_instrument a inc i w = (Ok tt, w')
    ∧ handlers w' !! a = Some (subscribed_handler inc i (signals w) fh)
    ∧ trace w' = trace w ++ (if included inc i then subscriptions a i else []).
Proof.
  intros H. pose proof (lookup_lt_Some _ _ _ H) as Hlt.
  unfold PhemexFeedHandler.subscribe_instrument, subscribed_handler, included.
  destruct (_ || _).
  - rewrite bind_eq. cbn [new_signal].
    rewrite bind_eq, (update_handler_Some _ _ _ fh) by done.
    rewrite bind_eq. cbn [new_signal signals handlers].
    rewrite bind_eq. erewrite update_handler_Some;
      [|by apply list_lookup_insert_eq].
    cbn [handlers feed_objects signals registry trace].
    rewrite bind_eq. cbn [new_signal signals handlers].
    rewrite bind_eq. erewrite update_handler_Some;
      [|apply list_lookup_insert_eq; by rewrite length_insert].
    cbn [handlers feed_objects signals registry trace].
    rewrite bind_eq. cbn [emit handlers feed_objects signals registry trace].
    eexists. split; [reflexivity|]. split.
    + cbn [handlers]. apply list_lookup_insert_eq.
      by rewrite !length_insert.
    + cbn [trace]. by rewrite <- app_assoc.
  - exists w. by rewrite app_nil_r.
Qed.

Lemma subscribed_handler_addressing inc i n fh :
  same_addressing fh (subscribed_handler inc i n fh).
Proof. unfold subscribed_handler. by destruct (included inc i). Qed.

Lemma subscribed_handler_grows inc i n fh symbol :
  has_signals fh symbol → has_signals (subscribed_handler inc i n fh) symbol.
Proof.
  unfold subscribed_handler, has_signals. destruct (included inc i); [|done].
  cbn. rewrite !lookup_insert_is_Some. intros (Ht & He & Hb).
  destruct (decide (exchange_instrument_code i = symbol)); naive_solver.
Qed.

Lemma subscribed_handler_included inc i n fh :
  included inc i = true →
  has_signals (subscribed_handler inc i n fh) (exchange_instrument_code i).
Proof.
  unfold subscribed_handler, has_signals. intros ->. cbn.
  rewrite !lookup_insert_eq. by repeat split.
Qed.

Lemma same_addressing_trans fh1 fh2 fh3 :
  same_addressing fh1 fh2 → same_addressing fh2 fh3 → same_addressing fh1 fh3.
Proof.
  intros (?&?&?&?&?) (?&?&?&?&?). repeat split; congruence.
Qed.

Lemma for_each_subscribe a inc l w fh :
  handlers w !! a = Some fh →
  ∃ w' fh',
    for_each l (PhemexFeedHandler.subscribe_instrument a inc) w = (Ok tt, w')
    ∧ handlers w' !! a = Some fh'
    ∧ trace w'
      = trace w ++ concat (map (subscriptions a) (List.filter (included inc) l))
    ∧ same_addressing fh fh'
    ∧ (∀ symbol, has_signals fh symbol → has_signals fh' symbol)
    ∧ (∀ i, i ∈ l → included inc i = true →
         has_signals fh' (exchange_instrument_code i)).
Proof.
  revert w fh. induction l as [|i l IH]; intros w fh H.
  - exists w, fh. rewrite app_nil_r.
    split; [done|]. split; [done|]. split; [done|].
    split; [by repeat split|]. split; [done|].
    intros i Hi. by apply elem_of_nil in Hi.
  - destruct (subscribe_instrument_run a inc i w fh H)
      as (w1 & Hrun & H1 & Ht1).
    destruct (IH w1 _ H1) as (w2 & fh2 & Hloop & H2 & Ht2 & Ha & Hg & Hin).
    exists w2, fh2. cbn [for_each]. rewrite bind_eq, Hrun, Hloop.
    split; [done|]. split; [done|]. split; [|split; [|split]].
    + rewrite Ht2, Ht1. cbn [List.filter].
      destruct (included inc i); cbn [map concat];
        by rewrite <- ?app_assoc, ?app_nil_r.
    + eapply same_addressing_trans;
        [apply subscribed_handler_addressing | exact Ha].
    + intros symbol Hs. by apply Hg, subscribed_handler_grows.
    + intros i' [->|Hi']%elem_of_cons Hinc; [|by apply Hin].
      by apply Hg, subscribed_handler_included.
Qed.

Lemma scheduled_states_app a w w' effects :
  trace w' = trace w ++ effects →
  scheduled_states a w'
  = scheduled_states a w ++ scheduled_states a (mkWorld [] [] 0 empty_registry effects).
Proof. intros H. unfold scheduled_states. by rewrite H, omap_app. Qed.

Lemma scheduled_states_start a l :
  scheduled_states a
    (mkWorld [] [] 0 empty_registry
       ([ScheduleState a STARTING]
        ++ concat (map (subscriptions a) l) ++ [ScheduleState a LIVE]))
  = [STARTING; LIVE].
Proof.
  unfold scheduled_states. cbn [trace]. rewrite !omap_app.
  assert (Hsub : omap (λ e, match e with
                           | ScheduleState a' s =>
                               if decide (a' = a) then Some s else None
                           | _ => None
                           end) (concat (map (subscriptions a) l)) = []).
  { induction l as [|i l IH]; [done|]. cbn. apply IH. }
  rewrite Hsub. cbn. by destruct (decide (a = a)).
Qed.

Lemma start_run a w fh :
  handlers w !! a = Some fh →
  ∃ w' fh',
    WebsocketFeedHandler.start a w = (Ok tt, w')
    ∧ handlers w' !! a = Some fh'
    ∧ state fh' = LIVE
    ∧ trace w'
      = trace w
        ++ [ScheduleState a STARTING]
        ++ concat (map (subscriptions a)
                     (List.filter (included (include_symbol fh))
                        (instruments fh)))
        ++ [ScheduleState a LIVE]
    ∧ same_addressing fh fh'
    ∧ (∀ i, i ∈ instruments fh → included (include_symbol fh) i = true →
         has_signals fh' (exchange_instrument_code i)).
Proof.
  intros H. pose proof (lookup_lt_Some _ _ _ H) as Hlt.
  unfold WebsocketFeedHandler.start.
  rewrite bind_eq, (schedule_state_Some _ _ _ _ H).
  unfold PhemexFeedHandler._subscribe_trades_and_quotes.
  rewrite bind_eq. unfold read_handler at 1. cbn [handlers].
  rewrite list_lookup_insert_eq by done.
  rewrite bind_eq. cbn [set_state instruments include_symbol].
  edestruct (for_each_subscribe a (include_symbol fh) (instruments fh))
    as (w1 & fh1 & Hloop & H1 & Ht1 & Ha & _ & Hin); [|rewrite Hloop].
  { cbn [handlers]. by apply list_lookup_insert_eq. }
  rewrite (schedule_state_Some _ _ _ _ H1).
  eexists _, _. split; [reflexivity|]. cbn [handlers trace]. split.
  { apply list_lookup_insert_eq. by apply lookup_lt_Some in H1. }
  split; [done|]. split.
  { rewrite Ht1. cbn [trace]. by rewrite <- !app_assoc. }
  split; [exact Ha | exact Hin].
Qed.

Lemma load_instruments_state products fh :
  state (PhemexFeedHandler._load_instruments products fh) = state fh.
Proof.
  revert fh. induction products as [|p ps IH]; intros fh; [done|].
  unfold PhemexFeedHandler._load_instruments in *. cbn [foldl].
  by rewrite IH.
Qed.

(** C7, as stated, fails: a handler started twice moves from LIVE back to
    STARTING. *)
Lemma state_moves_backwards : ¬ state_never_moves_backwards.
Proof.
  intros H. specialize (H Example.products "*" "prod" 2 2 LIVE STARTING).
  assert (Hs : states_after_starts Example.products "*" "prod" 2
               = [INITIALIZING; STARTING; LIVE; STARTING; LIVE])
    by (vm_compute; reflexivity).
  rewrite Hs in H. specialize (H eq_refl eq_refl). simpl in H. lia.
Qed.

(** C7, amended: a handler is constructed with state INITIALIZING; every
    [start()] of a handler schedules STARTING, then launches the trade and
    the order-book subscription of every included instrument, and only then
    schedules LIVE, which is the state it ends in; so a handler started once
    takes the states INITIALIZING, STARTING, LIVE in this order and never
    steps back. *)
Theorem start_schedules_starting_then_live :
  (∀ products include_symbol instance_id w,
     ∃ fh, PhemexFeedHandler.__init__ products include_symbol instance_id w
           = (Ok (length (handlers w)),
              {| handlers := handlers w ++ [fh];
                 feed_objects := feed_objects w; signals := signals w;
                 registry := registry w; trace := trace w |})
           ∧ state fh = INITIALIZING)
  ∧ (∀ products include_symbol instance_id,
       states_after_starts products include_symbol instance_id 1
       = [INITIALIZING; STARTING; LIVE]
       ∧ never_backwards
           (states_after_starts products include_symbol instance_id 1))
  ∧ ∀ a w fh,
      handlers w !! a = Some fh →
      ∃ w' fh',
        WebsocketFeedHandler.start a w = (Ok tt, w')
        ∧ handlers w' !! a = Some fh'
        ∧ state fh' = LIVE
        ∧ trace w'
          = trace w
            ++ [ScheduleState a STARTING]
            ++ concat (map (subscriptions a)
                         (List.filter (included (include_symbol fh))
                            (instruments fh)))
            ++ [ScheduleState a LIVE]
        ∧ scheduled_states a w' = scheduled_states a w ++ [STARTING; LIVE].
Proof.
  split; [|split].
  - intros products inc inst w. eexists. split; [reflexivity|].
    by rewrite load_instruments_state.
  - intros products inc inst.
    assert (Hs : states_after_starts products inc inst 1
                 = [INITIALIZING; STARTING; LIVE]).
    { unfold states_after_starts, calls. cbn [repeat foldl call].
      edestruct (start_run 0
        (PhemexFeedHandler.__init__ products inc inst empty_world).2)
        as (w' & fh' & Hrun & _ & _ & Ht & _); [reflexivity|].
      rewrite Hrun. cbn [snd].
      rewrite (scheduled_states_app _ _ _ _ Ht), scheduled_states_start.
      reflexivity. }
    split; [done|]. rewrite Hs.
    intros [|[|[|i]]] s s' [= <-] [= <-]; simpl; lia.
  - intros a w fh H.
    destruct (start_run a w fh H) as (w' & fh' & Hrun & H' & Hst & Ht & _).
    exists w', fh'. repeat (split; [done|]).
    by rewrite (scheduled_states_app _ _ _ _ Ht), scheduled_states_start.
Qed.

Lemma start_schedules_starting_then_live_witness :
  ∃ w' fh',
    WebsocketFeedHandler.start 0 Example.constructed = (Ok tt, w')
    ∧ handlers w' !! 0 = Some fh'
    ∧ state fh' = LIVE
    ∧ trace w'
      = trace Example.constructed
        ++ [ScheduleState 0 STARTING]
        ++ concat (map (subscriptions 0)
                     (List.filter (included "*") [Example.BTCUSD]))
        ++ [ScheduleState 0 LIVE]
    ∧ scheduled_states 0 w'
      = scheduled_states 0 Example.constructed ++ [STARTING; LIVE].
Proof.
  apply (proj2 (proj2 start_schedules_starting_then_live) 0
           Example.constructed (Example.handler_of Example.constructed)).
  vm_compute. reflexivity.
Defined.

(** ** From construction to the first feed *)

Lemma load_instruments_snoc products p fh :
  PhemexFeedHandler._load_instruments (products ++ [p]) fh
  = PhemexFeedHandler.load_product
      (PhemexFeedHandler._load_instruments products fh) p.
Proof. unfold PhemexFeedHandler._load_instruments. by rewrite foldl_app. Qed.

Lemma load_instruments_addressing products fh :
  let fh' := PhemexFeedHandler._load_instruments products fh in
  uri_scheme fh' = uri_scheme fh
  ∧ instance_id fh' = instance_id fh
  ∧ include_symbol fh' = include_symbol fh.
Proof.
  induction products as [|p ps IH] using rev_ind; [done|].
  rewrite load_instruments_snoc. by cbn.
Qed.

(** Every product of the list is discovered: its symbol is known, for the
    instrument of that symbol, and the instrument is listed. *)
Lemma load_instruments_known products fh p :
  p ∈ products →
  let fh' := PhemexFeedHandler._load_instruments products fh in
  let i := PhemexFeedHandler.get_or_create_exchange_instrument
             (PhemexFeedHandler.symbol p) "PHEMEX" in
  known_instrument_ids fh' !! PhemexFeedHandler.symbol p = Some i
  ∧ i ∈ instruments fh'.
Proof.
  induction products as [|q ps IH] using rev_ind.
  - intros Hp. by apply elem_of_nil in Hp.
  - intros Hp. cbn zeta. rewrite load_instruments_snoc. cbn.
    apply elem_of_app in Hp as [Hp|Hp%list_elem_of_singleton].
    + destruct (IH Hp) as [Hk Hi]. split.
      * destruct (decide (PhemexFeedHandler.symbol q
                          = PhemexFeedHandler.symbol p)) as [Heq|Hne].
        -- by rewrite Heq, lookup_insert_eq.
        -- by rewrite lookup_insert_ne.
      * apply elem_of_app. by left.
    + subst q. split; [apply lookup_insert_eq|].
      apply elem_of_app. right. by apply list_elem_of_singleton.
Qed.

(** A handler constructed from a product list and started serves a feed
    for every product its [include_symbol] admits: the handler is LIVE and
    its [get_feed] of the product's URI does not raise. *)
Lemma started_handler_serves products inc inst p w :
  no_colon inst → no_colon (PhemexFeedHandler.symbol p) →
  p ∈ products →
  PhemexFeedHandler.symbol p = inc ∨ inc = "*" →
  let a := length (handlers w) in
  let w' := calls w [CallNew products inc inst; CallStart a] in
  ∃ fh, handlers w' !! a = Some fh
        ∧ state fh = LIVE
        ∧ ¬ raises (WebsocketFeedHandler.get_feed fh
                      (feed_uri "phemex" inst (PhemexFeedHandler.symbol p))
                      w').1.
Proof.
  intros Hinst Hsym Hp Hinc a w'.
  set (fh0 := PhemexFeedHandler._load_instruments products
                (mkFeedHandler PhemexFeedHandler.get_uri_scheme inst [] ∅ ∅
                   INITIALIZING ∅ ∅ ∅ inc)).
  set (w0 := (PhemexFeedHandler.__init__ products inc inst w).2).
  assert (H0 : handlers w0 !! a = Some fh0).
  { subst w0 a. cbn. by rewrite lookup_app_r, Nat.sub_diag. }
  destruct (start_run a w0 fh0 H0)
    as (w1 & fh1 & Hrun & H1 & Hlive & _ & Haddr & Hsig).
  assert (Hw' : w' = w1).
  { subst w'. unfold calls. cbn [foldl call]. fold w0. by rewrite Hrun. }
  rewrite Hw'. exists fh1. split; [done|]. split; [done|].
  destruct (load_instruments_addressing products
              (mkFeedHandler PhemexFeedHandler.get_uri_scheme inst [] ∅ ∅
                 INITIALIZING ∅ ∅ ∅ inc)) as (Hs0 & Hi0 & Hinc0).
  destruct (load_instruments_known products
              (mkFeedHandler PhemexFeedHandler.get_uri_scheme inst [] ∅ ∅
                 INITIALIZING ∅ ∅ ∅ inc) p Hp) as [Hk0 Hin0].
  fold fh0 in Hs0, Hi0, Hinc0, Hk0, Hin0. cbn in Hs0, Hi0, Hinc0.
  destruct Haddr as (Hs1 & Hi1 & Hk1 & _ & _).
  rewrite get_feed_raises_iff by done.
  intros [Hne|[Hne|[Hnone|(i & Hk & Hnot)]]].
  - apply Hne. by rewrite Hs1, Hs0.
  - apply Hne. by rewrite Hi1, Hi0.
  - by rewrite Hk1, Hk0 in Hnone.
  - rewrite Hk1, Hk0 in Hk. injection Hk as <-.
    destruct (Hsig _ Hin0) as ([t Ht] & [e He] & [b Hb]).
    { unfold included. cbn. rewrite Hinc0.
      destruct Hinc as [->| ->]; rewrite String.eqb_refl;
        [done | by rewrite orb_true_r]. }
    apply Hnot. by exists t, e, b.
Qed.

(** ** More on the trade pipeline *)

Lemma float_of_int_outcome z :
  float_of_int z = Ok (Z2float z) ∧ convertible z
  ∨ float_of_int z = Raise float_overflow_error ∧ ¬ convertible z.
Proof.
  unfold float_of_int, convertible.
  destruct (Z.leb_spec float_overflow (Z.abs z)); [right | left];
    (split; [done | lia]).
Qed.

Lemma float_outcome x :
  (∃ f, float_ x = Ok f)
  ∨ float_ x = Raise float_overflow_error
    ∧ ¬ match x with Int z => convertible z | Float _ => True end.
Proof.
  destruct x as [z|f]; simpl; [|by left; eexists].
  destruct (float_of_int_outcome z) as [[-> _]|[-> Hn]];
    [by left; eexists | by right].
Qed.

Lemma div_pow10_outcome x n :
  (∃ f, div_pow10 x n = Ok f) ∨ div_pow10 x n = Raise float_overflow_error.
Proof.
  unfold div_pow10.
  destruct (float_of_int_outcome (10 ^ Z.of_N n)) as [[Hd _]|[Hd _]];
    rewrite Hd; [by left; eexists | by right].
Qed.

(** Whatever fails in the loop of [__extract_trades], the exception is the
    overflow of a conversion to [float]. *)
Lemma extract_trades_loop_outcome instrument price_scale raw trade_list :
  (∃ ts, extract_trades_loop instrument price_scale raw trade_list = Ok ts)
  ∨ extract_trades_loop instrument price_scale raw trade_list
    = Raise float_overflow_error.
Proof.
  revert trade_list. induction raw as [|t raw IH]; intros trade_list; simpl.
  - left. by eexists.
  - destruct (float_of_int_outcome (raw_price t)) as [[-> _]|[-> _]];
      [|by right].
    rewrite rbind_Ok.
    destruct (div_pow10_outcome (Z2float (raw_price t)) price_scale)
      as [[px Hpx]|Hpx]; rewrite Hpx; [|by right].
    rewrite rbind_Ok.
    destruct (float_outcome (raw_qty t)) as [[q ->]|[-> _]]; [|by right].
    rewrite rbind_Ok. apply IH.
Qed.

Lemma extract_trades_loop_overflow instrument price_scale raw trade_list t :
  t ∈ raw → ¬ convertible_trade t →
  extract_trades_loop instrument price_scale raw trade_list
  = Raise float_overflow_error.
Proof.
  intros Hin Hbad. revert trade_list.
  induction raw as [|t' raw IH]; intros trade_list.
  - by apply elem_of_nil in Hin.
  - simpl.
    destruct (float_of_int_outcome (raw_price t')) as [[-> Hp]|[-> _]];
      [|done].
    rewrite rbind_Ok.
    destruct (div_pow10_outcome (Z2float (raw_price t')) price_scale)
      as [[px Hpx]|Hpx]; rewrite Hpx; [|done].
    rewrite rbind_Ok.
    destruct (float_outcome (raw_qty t')) as [[q Hq]|[-> _]]; [|done].
    rewrite Hq, rbind_Ok.
    apply elem_of_cons in Hin as [->|Hin]; [|by apply IH].
    exfalso. apply Hbad. split; [done|].
    destruct (raw_qty t') as [z|f]; [|done]. simpl in Hq.
    by destruct (float_of_int_outcome z) as [[_ ?]|[Hz _]];
      [|rewrite Hz in Hq].
Qed.

(** X1: [__extract_trades] is all or nothing. If one raw tuple of a
    message has a price or a quantity that [float()] cannot convert, the
    call raises [OverflowError] and none of the message's trades is
    returned, wherever the tuple stands in the list; a message with an
    empty list of trades returns the empty list whatever the price scale
    is. *)
Theorem extract_trades_all_or_nothing (self : FeedHandler)
    (symbol : string) (instrument : ExchangeInstrument) (price_scale : N)
    (mtype : option string) :
  known_instrument_ids self !! symbol = Some instrument →
  price_scaling self !! symbol = Some price_scale →
  (∀ raw t, t ∈ raw → ¬ convertible_trade t →
     __extract_trades self (mkMessage mtype (Some symbol) (Some raw))
     = Raise float_overflow_error)
  ∧ __extract_trades self (mkMessage mtype (Some symbol) (Some [])) = Ok [].
Proof.
  intros Hk Hs. split.
  - intros raw t Hin Hbad. unfold __extract_trades, getitem; cbn.
    rewrite Hk; cbn. rewrite Hs; cbn.
    by apply (extract_trades_loop_overflow _ _ _ _ t).
  - unfold __extract_trades, getitem; cbn.
    rewrite Hk; cbn. by rewrite Hs.
Qed.

Lemma extract_trades_all_or_nothing_witness :
  let self := Example.handler_of Example.constructed in
  (∀ raw t, t ∈ raw → ¬ convertible_trade t →
     __extract_trades self
       (mkMessage (Some "incremental") (Some "BTCUSD") (Some raw))
     = Raise float_overflow_error)
  ∧ __extract_trades self
      (mkMessage (Some "incremental") (Some "BTCUSD") (Some [])) = Ok [].
Proof.
  apply (extract_trades_all_or_nothing
           (Example.handler_of Example.constructed) "BTCUSD"
           Example.BTCUSD 4%N (Some "incremental"));
    vm_compute; reflexivity.
Defined.

Lemma schedule_trades_subscribed fh t ts :
  Forall (λ tr, instrument_trades fh
                  !! exchange_instrument_code (trade_instrument tr) = Some t)
         ts →
  schedule_trades fh ts = Ok ((λ tr, (t, tr)) <$> ts).
Proof.
  induction 1 as [|tr ts Htr _ IH]; [done|].
  cbn [schedule_trades]. unfold TradeScheduler.on_activate, getitem.
  rewrite Htr, rbind_Ok, rbind_Ok, IH. reflexivity.
Qed.

(** X2: the trades decoded from an incremental message of a discovered and
    subscribed symbol are scheduled, one update per raw tuple and in the
    order of the message, on the very signal that the [Feed] which
    [get_feed] returns for that symbol holds as its trades. *)
Theorem trade_pipeline_feeds_the_feed (self : FeedHandler) (w : World)
    (symbol : string) (i : ExchangeInstrument) (price_scale : N)
    (raw : list RawTrade) (t e b : signal) :
  no_colon (uri_scheme self) → no_colon (instance_id self) →
  no_colon symbol →
  known_instrument_ids self !! symbol = Some i →
  price_scaling self !! symbol = Some price_scale →
  convertible (10 ^ Z.of_N price_scale) →
  Forall convertible_trade raw →
  subscribed self i t e b →
  trade_pipeline self
    (Json (mkMessage (Some "incremental") (Some symbol) (Some raw)))
  = Ok ((λ r, (t, decoded i price_scale r)) <$> raw)
  ∧ ∃ a w',
      WebsocketFeedHandler.get_feed self
        (feed_uri (uri_scheme self) (instance_id self) symbol) w
      = (Ok a, w')
      ∧ trades <$> feed_objects w' !! a = Some t.
Proof.
  intros Hs Hi Hx Hk Hsc Hscale Hraw Hsub. split.
  - unfold trade_pipeline, on_trade_message. cbn [json_loads].
    rewrite rbind_Ok. cbn [dict_get]. rewrite rbind_Ok.
    change (is_incremental _) with true. cbn iota.
    rewrite (extract_trades_decoded i price_scale Hscale) by done.
    rewrite rbind_Ok, (schedule_trades_subscribed self t).
    + by rewrite <- list_fmap_compose.
    + apply Forall_fmap, Forall_true. intros r. apply Hsub.
  - eexists _, _.
    rewrite (get_feed_subscribed self w _ _ _ Hs Hi Hx i t e b) by done.
    split; [reflexivity|]. cbn.
    by rewrite lookup_app_r, Nat.sub_diag.
Qed.

Lemma trade_pipeline_feeds_the_feed_witness :
  let self := Example.handler_of Example.live in
  trade_pipeline self (Json Example.trade_msg)
  = Ok ((λ r, (0, decoded Example.BTCUSD 4 r))
          <$> [mkRawTrade 555 "Buy" 3427800 (Float 2.5)])
  ∧ ∃ a w',
      WebsocketFeedHandler.get_feed self
        (feed_uri (uri_scheme self) (instance_id self) "BTCUSD") Example.live
      = (Ok a, w')
      ∧ trades <$> feed_objects w' !! a = Some 0.
Proof.
  apply (trade_pipeline_feeds_the_feed (Example.handler_of Example.live)
           Example.live "BTCUSD" Example.BTCUSD 4%N
           [mkRawTrade 555 "Buy" 3427800 (Float 2.5)] 0 1 2).
  - vm_compute; reflexivity.
  - vm_compute; reflexivity.
  - vm_compute; reflexivity.
  - vm_compute; reflexivity.
  - vm_compute; reflexivity.
  - vm_compute; reflexivity.
  - repeat constructor; vm_compute; reflexivity.
  - repeat split; vm_compute; reflexivity.
Defined.

(** ** Instrument discovery *)

Lemma last_filter_snoc {A} (P : A → Prop) `{∀ x, Decision (P x)}
    (l : list A) (x : A) :
  last (filter P (l ++ [x]))
  = if decide (P x) then Some x else last (filter P l).
Proof.
  rewrite filter_app, filter_cons, filter_nil.
  destruct (decide (P x)).
  - by rewrite last_snoc.
  - by rewrite app_nil_r.
Qed.

(** X3: what [_load_instruments] leaves in the handler. The instrument
    list gets one entry per product, in the order of the product list,
    duplicates included; under each product symbol the instrument table
    holds the instrument of that symbol and the scale table the price scale
    of the last product with that symbol; symbols of no product keep what
    the tables held. *)
Theorem load_instruments_tables (products : list PhemexFeedHandler.Product)
    (fh : FeedHandler) :
  let fh' := PhemexFeedHandler._load_instruments products fh in
  let last_of (s : string) :=
    last (filter (λ p, PhemexFeedHandler.symbol p = s) products) in
  instruments fh' = instruments fh ++ (instrument_of <$> products)
  ∧ (∀ s, known_instrument_ids fh' !! s
          = match last_of s with
            | Some p => Some (instrument_of p)
            | None => known_instrument_ids fh !! s
            end)
  ∧ (∀ s, price_scaling fh' !! s
          = match last_of s with
            | Some p => Some (PhemexFeedHandler.priceScale p)
            | None => price_scaling fh !! s
            end).
Proof.
  induction products as [|q ps IH] using rev_ind.
  - cbn. by rewrite app_nil_r.
  - cbn zeta in *. destruct IH as (Hi & Hk & Hs).
    rewrite load_instruments_snoc. cbn.
    rewrite Hi, fmap_app, app_assoc. split; [done|].
    split; intros s; rewrite last_filter_snoc;
      destruct (decide (PhemexFeedHandler.symbol q = s)) as [<-|Hne].
    + by rewrite lookup_insert_eq.
    + by rewrite lookup_insert_ne.
    + by rewrite lookup_insert_eq.
    + by rewrite lookup_insert_ne.
Qed.

(** ** Starting a handler that includes nothing *)

Lemma subscribe_instrument_excluded a inc i w :
  included inc i = false →
  PhemexFeedHandler.subscribe_instrument a inc i w = (Ok tt, w).
Proof.
  unfold PhemexFeedHandler.subscribe_instrument, included. by intros ->.
Qed.

Lemma for_each_subscribe_excluded a inc l w :
  (∀ i, i ∈ l → included inc i = false) →
  for_each l (PhemexFeedHandler.subscribe_instrument a inc) w = (Ok tt, w).
Proof.
  induction l as [|i l IH]; intros Hex; [done|].
  cbn [for_each]. rewrite bind_eq, subscribe_instrument_excluded.
  - apply IH. intros j Hj. apply Hex. by right.
  - apply Hex. by left.
Qed.

Lemma handler_get_feed_unsubscribed self uri w :
  instrument_trades self = ∅ →
  raises (WebsocketFeedHandler.get_feed self uri w).1.
Proof.
  intros Hempty. unfold WebsocketFeedHandler.get_feed.
  destruct (unpack3 (split ":" uri)) as [[[s i] x]|e]; [|done].
  rewrite bind_lift_Ok.
  destruct (negb (s =? uri_scheme self)%string); [done|].
  destruct (negb (i =? instance_id self)%string); [done|].
  destruct (known_instrument_ids self !! x) as [instr|]; [|done].
  rewrite bind_eq. cbn [logger_info emit].
  unfold PhemexFeedHandler._create_feed, getitem.
  by rewrite Hempty, lookup_empty.
Qed.

(** X4: a handler whose [include_symbol] admits none of its instruments
    still goes live. [start()] returns, schedules STARTING and then LIVE,
    creates no signal and launches no subscription; if the handler held no
    signals before, as after construction, its [get_feed] then raises for
    every URI although the state is LIVE. *)
Theorem start_with_nothing_included (a : addr) (w : World)
    (fh : FeedHandler) :
  handlers w !! a = Some fh →
  (∀ i, i ∈ instruments fh → included (include_symbol fh) i = false) →
  WebsocketFeedHandler.start a w
  = (Ok tt,
     {| handlers := <[a := set_state LIVE fh]> (handlers w);
        feed_objects := feed_objects w; signals := signals w;
        registry := registry w;
        trace := trace w ++ [ScheduleState a STARTING; ScheduleState a LIVE] |})
  ∧ (instrument_trades fh = ∅ →
     ∀ uri w', raises (WebsocketFeedHandler.get_feed
                         (set_state LIVE fh) uri w').1).
Proof.
  intros H Hex. pose proof (lookup_lt_Some _ _ _ H) as Hlt. split.
  - unfold WebsocketFeedHandler.start.
    rewrite bind_eq, (schedule_state_Some _ _ _ _ H).
    unfold PhemexFeedHandler._subscribe_trades_and_quotes.
    rewrite bind_eq. unfold read_handler at 1. cbn [handlers].
    rewrite list_lookup_insert_eq by done.
    rewrite bind_eq. cbn [set_state instruments include_symbol].
    rewrite for_each_subscribe_excluded by done.
    erewrite schedule_state_Some;
      [|cbn [handlers]; by apply list_lookup_insert_eq].
    cbn [handlers feed_objects signals registry trace].
    by rewrite list_insert_insert_eq, <- app_assoc.
  - intros Hempty uri w'. by apply handler_get_feed_unsubscribed.
Qed.

Lemma start_with_nothing_included_witness :
  let w := calls empty_world [CallNew Example.products "ETHUSD" "prod"] in
  let fh := PhemexFeedHandler._load_instruments Example.products
              (mkFeedHandler "phemex" "prod" [] ∅ ∅ INITIALIZING ∅ ∅ ∅
                 "ETHUSD") in
  WebsocketFeedHandler.start 0 w
  = (Ok tt,
     {| handlers := <[0 := set_state LIVE fh]> (handlers w);
        feed_objects := feed_objects w; signals := signals w;
        registry := registry w;
        trace := trace w ++ [ScheduleState 0 STARTING; ScheduleState 0 LIVE] |})
  ∧ (instrument_trades fh = ∅ →
     ∀ uri w', raises (WebsocketFeedHandler.get_feed
                         (set_state LIVE fh) uri w').1).
Proof.
  intros w fh. apply (start_with_nothing_included 0 w fh).
  - reflexivity.
  - intros i Hi. apply list_elem_of_singleton in Hi as ->.
    vm_compute. reflexivity.
Defined.

(** ** Outcomes of feed acquisition *)

Lemma handler_get_feed_outcome self uri w :
  match WebsocketFeedHandler.get_feed self uri w with
  | (Ok a, w') => ∃ f, a = length (feed_objects w) ∧ w' = acquired w uri f
  | (Raise e, w') => w' = w ∨ w' = logged w ("Acquiring Feed for " +:+ uri)
  end.
Proof.
  unfold WebsocketFeedHandler.get_feed.
  destruct (unpack3 (split ":" uri)) as [[[s i] x]|e]; [|by left].
  rewrite bind_lift_Ok.
  destruct (negb (s =? uri_scheme self)%string); [by left|].
  destruct (negb (i =? instance_id self)%string); [by left|].
  destruct (known_instrument_ids self !! x) as [instr|]; [|by left].
  rewrite bind_eq. cbn [logger_info emit].
  unfold PhemexFeedHandler._create_feed, getitem.
  destruct (instrument_trades self !! _) as [t|]; [|by right].
  rewrite bind_lift_Ok.
  destruct (instrument_order_book_events self !! _) as [ev|]; [|by right].
  rewrite bind_lift_Ok.
  destruct (instrument_order_books self !! _) as [b|]; [|by right].
  rewrite bind_lift_Ok. by eexists.
Qed.

(** The registry's [get_feed] on a URI that is not cached, step by step. *)
Lemma registry_get_feed_eq uri w :
  feeds (registry w) !! uri = None →
  FeedHandlerRegistry.get_feed uri w
  = match unpack3 (split ":" uri) with
    | Raise e => (Raise e, w)
    | Ok (scheme, instance, _) =>
        match fh_registry (registry w) !! (scheme +:+ ":" +:+ instance) with
        | None => (Raise (KeyError (scheme +:+ ":" +:+ instance)), w)
        | Some a =>
            match handlers w !! a with
            | None => (Raise NoSuchObject, w)
            | Some h =>
                match WebsocketFeedHandler.get_feed h uri w with
                | (Ok feed, w1) => (Ok feed, cached w1 uri feed)
                | (Raise e, w1) => (Raise e, w1)
                end
            end
        end
    end.
Proof.
  intros H. unfold FeedHandlerRegistry.get_feed.
  rewrite bind_eq. cbn [read_registry]. rewrite H.
  destruct (unpack3 (split ":" uri)) as [[[s i] x]|e]; [|done].
  rewrite bind_lift_Ok. unfold getitem.
  destruct (fh_registry (registry w) !! (s +:+ ":" +:+ i)) as [a|]; [|done].
  rewrite bind_lift_Ok, bind_eq. unfold read_handler.
  destruct (handlers w !! a) as [h|]; [|done].
  rewrite bind_eq.
  by destruct (WebsocketFeedHandler.get_feed h uri w) as [[feed|e] w1].
Qed.

(** X5: a failed acquisition is not remembered. When the registry's
    [get_feed] raises, the URI was not cached and is not cached now; the
    handlers, the [Feed] objects and the registry are as before, the only
    thing that may have been added being the handler's log line; so a later
    call asks the handler again. *)
Theorem registry_get_feed_failure_forgotten (uri : string) (w w' : World)
    (e : exn) :
  FeedHandlerRegistry.get_feed uri w = (Raise e, w') →
  feeds (registry w) !! uri = None
  ∧ (w' = w ∨ w' = logged w ("Acquiring Feed for " +:+ uri))
  ∧ feeds (registry w') !! uri = None.
Proof.
  intros Hget.
  destruct (feeds (registry w) !! uri) as [a|] eqn:Hc.
  { rewrite (registry_get_feed_cached _ _ _ Hc) in Hget. done. }
  split; [done|].
  assert (Hw : w' = w ∨ w' = logged w ("Acquiring Feed for " +:+ uri)).
  { rewrite (registry_get_feed_eq _ _ Hc) in Hget.
    destruct (unpack3 (split ":" uri)) as [[[s i] x]|e0];
      [|left; congruence].
    destruct (fh_registry (registry w) !! _) as [a|]; [|left; congruence].
    destruct (handlers w !! a) as [h|]; [|left; congruence].
    pose proof (handler_get_feed_outcome h uri w) as Hout.
    destruct (WebsocketFeedHandler.get_feed h uri w) as [[feed|e1] w1];
      [done|].
    by simplify_eq. }
  split; [done|]. by destruct Hw as [->| ->].
Qed.

Lemma registry_get_feed_failure_forgotten_witness :
  let w := calls Example.constructed [CallRegister 0] in
  feeds (registry w) !! Example.uri = None
  ∧ ((FeedHandlerRegistry.get_feed Example.uri w).2 = w
     ∨ (FeedHandlerRegistry.get_feed Example.uri w).2
       = logged w ("Acquiring Feed for " +:+ Example.uri))
  ∧ feeds (registry (FeedHandlerRegistry.get_feed Example.uri w).2)
      !! Example.uri = None.
Proof.
  intros w.
  apply (registry_get_feed_failure_forgotten Example.uri w
           (FeedHandlerRegistry.get_feed Example.uri w).2
           (KeyError "BTCUSD")).
  vm_compute. reflexivity.
Defined.

Lemma registry_get_feed_first (w : World) (a : addr) (fh : FeedHandler)
    (symbol : string) (i : ExchangeInstrument) (t e b : signal) :
  no_colon (uri_scheme fh) → no_colon (instance_id fh) → no_colon symbol →
  let uri := feed_uri (uri_scheme fh) (instance_id fh) symbol in
  feeds (registry w) !! uri = None →
  fh_registry (registry w) !! FeedHandlerRegistry._get_fh_key fh = Some a →
  handlers w !! a = Some fh →
  known_instrument_ids fh !! symbol = Some i →
  subscribed fh i t e b →
  FeedHandlerRegistry.get_feed uri w
  = (Ok (length (feed_objects w)),
     cached (acquired w uri (mkFeed i t e b)) uri (length (feed_objects w))).
Proof.
  intros Hs Hi Hx uri Hc Hreg Hh Hk Hsub.
  rewrite (registry_get_feed_eq _ _ Hc). subst uri.
  rewrite split_feed_uri by done. cbn [unpack3].
  unfold FeedHandlerRegistry._get_fh_key in Hreg. rewrite Hreg, Hh.
  by rewrite (get_feed_subscribed fh w _ _ _ Hs Hi Hx i t e b).
Qed.

(** X6: the first acquisition through the registry. For a URI that is not
    cached, whose scheme:instance is registered for a handler with that
    scheme and instance which has discovered and subscribed the symbol, the
    registry's [get_feed] returns a new [Feed] object holding the
    instrument and the handler's three signals for it, and caches it under
    the URI; nothing else changes but the log. *)
Theorem registry_get_feed_acquires (w : World) (a : addr) (fh : FeedHandler)
    (symbol : string) (i : ExchangeInstrument) (t e b : signal) :
  no_colon (uri_scheme fh) → no_colon (instance_id fh) → no_colon symbol →
  let uri := feed_uri (uri_scheme fh) (instance_id fh) symbol in
  feeds (registry w) !! uri = None →
  fh_registry (registry w) !! FeedHandlerRegistry._get_fh_key fh = Some a →
  handlers w !! a = Some fh →
  known_instrument_ids fh !! symbol = Some i →
  subscribed fh i t e b →
  FeedHandlerRegistry.get_feed uri w
  = (Ok (length (feed_objects w)),
     cached (acquired w uri (mkFeed i t e b)) uri (length (feed_objects w))).
Proof.
  intros Hs Hi Hx uri Hc Hreg Hh Hk Hsub.
  rewrite (registry_get_feed_eq _ _ Hc). subst uri.
  rewrite split_feed_uri by done. cbn [unpack3].
  unfold FeedHandlerRegistry._get_fh_key in Hreg. rewrite Hreg, Hh.
  by rewrite (get_feed_subscribed fh w _ _ _ Hs Hi Hx i t e b).
Qed.

Lemma registry_get_feed_acquires_witness :
  FeedHandlerRegistry.get_feed Example.uri Example.live
  = (Ok 0,
     cached (acquired Example.live Example.uri (mkFeed Example.BTCUSD 0 1 2))
       Example.uri 0).
Proof.
  apply (registry_get_feed_acquires Example.live 0
           (Example.handler_of Example.live) "BTCUSD" Example.BTCUSD 0 1 2).
  - vm_compute; reflexivity.
  - vm_compute; reflexivity.
  - vm_compute; reflexivity.
  - vm_compute; reflexivity.
  - vm_compute; reflexivity.
  - vm_compute; reflexivity.
  - vm_compute; reflexivity.
  - repeat split; vm_compute; reflexivity.
Defined.

(** ** Computations that leave the Feed objects alone *)

Lemma keeps_bind {A B X} (f : World → X) (m : M A) (k : A → M B) :
  keeps f m → (∀ a, keeps f (k a)) → keeps f (m ≫= k).
Proof.
  intros Hm Hk w. rewrite bind_eq. specialize (Hm w).
  destruct (m w) as [[a|e] w1]; simpl in *; [|done].
  by rewrite Hk.
Qed.

Lemma keeps_for_each {A X} (f : World → X) (xs : list A)
    (body : A → M unit) :
  (∀ x, keeps f (body x)) → keeps f (for_each xs body).
Proof.
  intros Hbody. induction xs as [|x xs IH]; simpl; [done|].
  by apply keeps_bind.
Qed.

Lemma keeps_feeds_update_handler a g : keeps feed_objects (update_handler a g).
Proof. intros w. unfold update_handler. by destruct (handlers w !! a). Qed.

Lemma keeps_feeds_read_handler a : keeps feed_objects (read_handler a).
Proof. intros w. unfold read_handler. by destruct (handlers w !! a). Qed.

Lemma keeps_feeds_schedule_state a s : keeps feed_objects (schedule_state a s).
Proof.
  apply keeps_bind; [apply keeps_feeds_update_handler | by intros ? ?].
Qed.

Lemma keeps_feeds_start a : keeps feed_objects (WebsocketFeedHandler.start a).
Proof.
  apply keeps_bind; [apply keeps_feeds_schedule_state | intros _].
  apply keeps_bind; [apply keeps_feeds_read_handler | intros fh].
  apply keeps_bind; [|intros _; apply keeps_feeds_schedule_state].
  apply keeps_for_each. intros i.
  unfold PhemexFeedHandler.subscribe_instrument.
  destruct (_ || _); [|done].
  repeat (apply keeps_bind;
          [first [apply keeps_feeds_update_handler | by intros ?]
          |intros ?]).
  by intros ?.
Qed.

Lemma keeps_feeds_register a : keeps feed_objects (FeedHandlerRegistry.register a).
Proof.
  apply keeps_bind; [apply keeps_feeds_read_handler | intros fh].
  apply keeps_bind; [by intros ? | intros r].
  apply keeps_bind; by intros ?.
Qed.

(** ** Memoization in the registry *)

(** What a call of the registry's [get_feed] does, in full. *)
Lemma registry_get_feed_outcome uri w :
  match FeedHandlerRegistry.get_feed uri w with
  | (Ok a, w') =>
      (feeds (registry w) !! uri = Some a ∧ w' = w)
      ∨ (feeds (registry w) !! uri = None
         ∧ ∃ scheme instance symbol fh h f,
             split ":" uri = [scheme; instance; symbol]
             ∧ fh_registry (registry w) !! (scheme +:+ ":" +:+ instance)
               = Some fh
             ∧ handlers w !! fh = Some h
             ∧ WebsocketFeedHandler.get_feed h uri w
               = (Ok a, acquired w uri f)
             ∧ a = length (feed_objects w)
             ∧ w' = cached (acquired w uri f) uri a)
  | (Raise e, w') => w' = w ∨ w' = logged w ("Acquiring Feed for " +:+ uri)
  end.
Proof.
  destruct (feeds (registry w) !! uri) as [a0|] eqn:Hc.
  { rewrite (registry_get_feed_cached _ _ _ Hc). by left. }
  rewrite (registry_get_feed_eq _ _ Hc).
  destruct (split ":" uri) as [|scheme [|instance [|symbol [|? ?]]]] eqn:Hsp;
    cbn [unpack3]; try by left.
  destruct (fh_registry (registry w) !! (scheme +:+ ":" +:+ instance))
    as [fh|] eqn:Hfh; [|by left].
  destruct (handlers w !! fh) as [h|] eqn:Hh; [|by left].
  pose proof (handler_get_feed_outcome h uri w) as Hout.
  destruct (WebsocketFeedHandler.get_feed h uri w) as [[a|e] w1] eqn:Hget;
    [|done].
  destruct Hout as (f & -> & ->). right. split; [done|].
  by exists scheme, instance, symbol, fh, h, f.
Qed.

(** Calls create [Feed] objects and never remove or replace one; an entry
    they add to the cache names an object they have just created. *)
Lemma call_extends w c :
  (∃ l, feed_objects (call w c) = feed_objects w ++ l)
  ∧ ∀ uri a, feeds (registry (call w c)) !! uri = Some a →
      feeds (registry w) !! uri = Some a
      ∨ is_Some (feed_objects (call w c) !! a).
Proof.
  destruct c as [products inc inst|fh|fh|uri'|fh uri']; unfold call.
  - split; [exists []; by rewrite app_nil_r|]. intros uri a H. by left.
  - split.
    + exists []. by rewrite app_nil_r, keeps_feeds_start.
    + intros uri a H. left. by rewrite keeps_registry_start in H.
  - split.
    + exists []. by rewrite app_nil_r, keeps_feeds_register.
    + intros uri a H. left.
      by destruct (register_registry fh w) as [Hr|[key Hr]];
        rewrite Hr in H.
  - pose proof (registry_get_feed_outcome uri' w) as Hout.
    destruct (FeedHandlerRegistry.get_feed uri' w) as [[a'|e] w1].
    + destruct Hout as [[_ ->]|(Hc & _ & _ & _ & _ & _ & f & _ & _ & _ & _
                                 & -> & ->)]; cbn [snd].
      * split; [exists []; by rewrite app_nil_r|]. intros uri a H. by left.
      * split; [by exists [f]|]. intros uri a H.
        cbn [cached acquired registry feeds feed_objects] in *.
        destruct (decide (uri' = uri)) as [<-|Hne].
        -- rewrite lookup_insert_eq in H. injection H as <-. right.
           rewrite lookup_app_r, Nat.sub_diag by done. by eexists.
        -- rewrite lookup_insert_ne in H by done. by left.
    + cbn [snd]. destruct Hout as [->| ->].
      * split; [exists []; by rewrite app_nil_r|]. intros uri a H. by left.
      * split; [exists []; by rewrite app_nil_r|]. intros uri a H. by left.
  - rewrite bind_eq. unfold read_handler.
    destruct (handlers w !! fh) as [h|].
    + pose proof (handler_get_feed_outcome h uri' w) as Hout.
      destruct (WebsocketFeedHandler.get_feed h uri' w) as [[a'|e] w1];
        cbn [snd].
      * destruct Hout as (f & _ & ->).
        split; [by exists [f]|]. intros uri a H. by left.
      * destruct Hout as [->| ->].
        -- split; [exists []; by rewrite app_nil_r|]. intros ? ? ?. by left.
        -- split; [exists []; by rewrite app_nil_r|]. intros ? ? ?. by left.
    + split; [exists []; by rewrite app_nil_r|]. intros ? ? ?. by left.
Qed.

(** A [Feed] object outlives every call. *)
Lemma calls_keep_feed w cs a f :
  feed_objects w !! a = Some f → feed_objects (calls w cs) !! a = Some f.
Proof.
  revert w. induction cs as [|c cs IH]; intros w H; [done|].
  cbn [calls foldl]. apply IH.
  destruct (call_extends w c) as [[l ->] _]. by apply lookup_app_l_Some.
Qed.

Lemma calls_cache_valid w cs : cache_valid w → cache_valid (calls w cs).
Proof.
  revert w. induction cs as [|c cs IH]; intros w Hinv; [done|].
  cbn [calls foldl]. apply IH. intros uri a H.
  destruct (call_extends w c) as [[l Hl] Hnew].
  destruct (Hnew uri a H) as [Hold|Hcreated]; [|done].
  destruct (Hinv uri a Hold) as [f Hf]. exists f.
  rewrite Hl. by apply lookup_app_l_Some.
Qed.

(** C3: in every store the calls on handlers and on the registry lead to,
    a [get_feed] of the registry that returns has the returned handle in
    its cache under the URI, and the handle names a [Feed] object. If the
    URI was not cached, that object is the one the handler registered for
    the URI's scheme:instance has just created, in its one call. From then
    on, after any further calls on the registry and on handlers, [get_feed]
    of that URI returns the same handle, which names the same [Feed], and
    leaves the store as it is: no handler is called, nothing is logged, no
    object is created. *)
Theorem registry_get_feed_memoized (before : list Call) (uri : string)
    (a : addr) (w' : World) :
  let w := calls empty_world before in
  FeedHandlerRegistry.get_feed uri w = (Ok a, w') →
  ∃ feed,
    feeds (registry w') !! uri = Some a
    ∧ feed_objects w' !! a = Some feed
    ∧ (feeds (registry w) !! uri = None →
       ∃ scheme instance symbol fh h w1,
         split ":" uri = [scheme; instance; symbol]
         ∧ fh_registry (registry w) !! (scheme +:+ ":" +:+ instance)
           = Some fh
         ∧ handlers w !! fh = Some h
         ∧ WebsocketFeedHandler.get_feed h uri w = (Ok a, w1)
         ∧ feed_objects w1 = feed_objects w ++ [feed]
         ∧ w' = cached w1 uri a)
    ∧ ∀ later,
        FeedHandlerRegistry.get_feed uri (calls w' later)
        = (Ok a, calls w' later)
        ∧ feed_objects (calls w' later) !! a = Some feed.
Proof.
  intros w Hget.
  pose proof (registry_get_feed_caches _ _ _ _ Hget) as Hc'.
  assert (Hvalid : cache_valid w').
  { change w' with (Ok a, w').2. rewrite <- Hget.
    apply (calls_cache_valid w [CallGetFeed uri]), calls_cache_valid.
    intros u x H. simpl in H. by rewrite lookup_empty in H. }
  destruct (Hvalid uri a Hc') as [feed Hfeed]. exists feed.
  split; [done|]. split; [done|]. split.
  - intros Hnone. pose proof (registry_get_feed_outcome uri w) as Hout.
    rewrite Hget in Hout.
    destruct Hout as [[Hsome _]|(_ & scheme & instance & symbol & fh & h & f
                                   & Hsp & Hfh & Hh & Hcall & Ha & Hw')].
    { by rewrite Hnone in Hsome. }
    exists scheme, instance, symbol, fh, h, (acquired w uri f).
    repeat (split; [done|]). split; [|done].
    rewrite Hw', Ha in Hfeed. cbn [cached acquired feed_objects] in Hfeed.
    rewrite lookup_app_r, Nat.sub_diag in Hfeed by done.
    injection Hfeed as ->. done.
  - intros later. split.
    + by apply registry_get_feed_cached, calls_keep_cached.
    + by apply calls_keep_feed.
Qed.

Lemma registry_get_feed_memoized_witness :
  let w := calls empty_world
             [CallNew Example.products "*" "prod"; CallRegister 0;
              CallStart 0] in
  let w' := acquired_by_registry in
  ∃ feed,
    feeds (registry w') !! Example.uri = Some 0
    ∧ feed_objects w' !! 0 = Some feed
    ∧ (feeds (registry w) !! Example.uri = None →
       ∃ scheme instance symbol fh h w1,
         split ":" Example.uri = [scheme; instance; symbol]
         ∧ fh_registry (registry w) !! (scheme +:+ ":" +:+ instance)
           = Some fh
         ∧ handlers w !! fh = Some h
         ∧ WebsocketFeedHandler.get_feed h Example.uri w = (Ok 0, w1)
         ∧ feed_objects w1 = feed_objects w ++ [feed]
         ∧ w' = cached w1 Example.uri 0)
    ∧ ∀ later,
        FeedHandlerRegistry.get_feed Example.uri (calls w' later)
        = (Ok 0, calls w' later)
        ∧ feed_objects (calls w' later) !! 0 = Some feed.
Proof.
  intros w w'.
  apply (registry_get_feed_memoized
           [CallNew Example.products "*" "prod"; CallRegister 0; CallStart 0]
           Example.uri 0 w').
  vm_compute. reflexivity.
Defined.

(** ** The store ws_fh_main works in *)

(** After construction, registration and [start()], the handler is live
    and registered under phemex:instance, it knows every product, it holds
    signals for every product its [include_symbol] admits, and the cache
    and the [Feed] objects are as before. *)
Lemma load_instruments_listed products fh :
  instruments (PhemexFeedHandler._load_instruments products fh)
  = instruments fh ++ (instrument_of <$> products).
Proof.
  induction products as [|q ps IH] using rev_ind.
  - cbn. by rewrite app_nil_r.
  - rewrite load_instruments_snoc. cbn.
    by rewrite IH, fmap_app, app_assoc.
Qed.

Lemma main_world_handler products inc inst w :
  let a : addr := length (handlers w) in
  let w1 := main_world products inc inst w in
  ∃ fh,
    handlers w1 !! a = Some fh
    ∧ state fh = LIVE
    ∧ uri_scheme fh = "phemex" ∧ instance_id fh = inst
    ∧ instruments fh = instrument_of <$> products
    ∧ (∀ p, p ∈ products →
         known_instrument_ids fh !! PhemexFeedHandler.symbol p
         = Some (instrument_of p))
    ∧ (∀ p, p ∈ products → included inc (instrument_of p) = true →
         has_signals fh (PhemexFeedHandler.symbol p))
    ∧ fh_registry (registry w1) !! ("phemex" +:+ ":" +:+ inst) = Some a
    ∧ feeds (registry w1) = feeds (registry w)
    ∧ feed_objects w1 = feed_objects w.
Proof.
  intros a w1.
  set (blank := mkFeedHandler PhemexFeedHandler.get_uri_scheme inst [] ∅ ∅
                  INITIALIZING ∅ ∅ ∅ inc).
  set (fh0 := PhemexFeedHandler._load_instruments products blank).
  set (w0 := (PhemexFeedHandler.__init__ products inc inst w).2).
  assert (H0 : handlers w0 !! a = Some fh0).
  { subst w0 a. cbn. by rewrite lookup_app_r, Nat.sub_diag. }
  destruct (load_instruments_addressing products blank) as (Hs0 & Hi0 & Hinc0).
  pose proof (load_instruments_listed products blank) as Hl0.
  fold fh0 in Hs0, Hi0, Hinc0, Hl0. cbn in Hs0, Hi0, Hinc0, Hl0.
  set (wr := (FeedHandlerRegistry.register a w0).2).
  assert (Hwr : wr = {| handlers := handlers w0; feed_objects := feed_objects w0;
                        signals := signals w0;
                        registry :=
                          {| fh_registry :=
                               <["phemex" +:+ ":" +:+ inst := a]>
                                 (fh_registry (registry w0));
                             feeds := feeds (registry w0) |};
                        trace := trace w0
                                 ++ [LogInfo ("registered FeedHandler: "
                                              +:+ "phemex" +:+ ":" +:+ inst)] |}).
  { subst wr. unfold FeedHandlerRegistry.register.
    rewrite bind_eq. unfold read_handler. rewrite H0.
    unfold FeedHandlerRegistry._get_fh_key. by rewrite Hs0, Hi0. }
  assert (Hr : handlers wr !! a = Some fh0) by by rewrite Hwr.
  destruct (start_run a wr fh0 Hr)
    as (w' & fh1 & Hrun & H1 & Hlive & _ & Haddr & Hsig).
  assert (Hw1 : w1 = w').
  { subst w1. unfold main_world, calls. cbn [foldl call].
    fold a. fold w0. fold wr. by rewrite Hrun. }
  destruct Haddr as (Hs1 & Hi1 & Hk1 & Hl1 & Hinc1).
  exists fh1. rewrite Hw1.
  assert (Hreg : registry w' = registry wr).
  { pose proof (keeps_registry_start a wr) as Hk. by rewrite Hrun in Hk. }
  assert (Hfeeds : feed_objects w' = feed_objects wr).
  { pose proof (keeps_feeds_start a wr) as Hk. by rewrite Hrun in Hk. }
  split; [done|]. split; [done|].
  split; [by rewrite Hs1|]. split; [by rewrite Hi1|].
  split; [by rewrite Hl1|]. split.
  { intros p Hp. rewrite Hk1.
    by destruct (load_instruments_known products blank p Hp) as [Hk _]. }
  split.
  { intros p Hp Hin.
    apply (Hsig (instrument_of p)).
    - rewrite Hl0. apply list_elem_of_fmap. by exists p.
    - by rewrite Hinc0. }
  rewrite Hreg, Hfeeds, Hwr. cbn.
  split; [apply lookup_insert_eq|done].
Qed.

(** ** FeedHandlerMarketdataService *)

Section Service.

Import FeedHandlerMarketdataService.

Lemma get_feed_uri_uri self i :
  (__get_feed_uri self i).1
  = lower (exchange_code i) +:+ ":" +:+ instance_id self +:+ ":"
    +:+ exchange_instrument_code i.
Proof. reflexivity. Qed.

Lemma get_feed_uri_service self i :
  let self' := (__get_feed_uri self i).2 in
  instance_id self' = instance_id self
  ∧ notified_instruments self' = notified_instruments self ∪ {[i]}
  ∧ subscribed_instruments self'
    = if decide (i ∈ notified_instruments self)
      then subscribed_instruments self
      else subscribed_instruments self ++ [i].
Proof.
  unfold __get_feed_uri. cbn.
  destruct (decide (i ∈ notified_instruments self)); cbn; [|done].
  split; [done|]. split; [set_solver|done].
Qed.

Lemma get_service field self i w :
  (get field self i w).1.2 = (__get_feed_uri self i).2.
Proof.
  unfold get. destruct (__get_feed_uri self i) as [uri self'].
  match goal with
  | |- (let '(_, _) := ?x in _).1.2 = _ => by destruct x
  end.
Qed.

Lemma serve_service sw r :
  (serve sw r).1 = (__get_feed_uri sw.1 (requested r)).2.
Proof.
  unfold serve, get_trades, get_order_books, get_order_book_events.
  destruct r as [i|i|i]; cbn [requested].
  - rewrite <- (get_service trades sw.1 i sw.2).
    by destruct (get trades sw.1 i sw.2) as [[? ?] ?].
  - rewrite <- (get_service order_books sw.1 i sw.2).
    by destruct (get order_books sw.1 i sw.2) as [[? ?] ?].
  - rewrite <- (get_service order_book_events sw.1 i sw.2).
    by destruct (get order_book_events sw.1 i sw.2) as [[? ?] ?].
Qed.

Lemma announced_once_step self i :
  announced_once self → announced_once (__get_feed_uri self i).2.
Proof.
  intros [Hnd Hiff]. destruct (get_feed_uri_service self i) as (_ & Hn & Hs).
  unfold announced_once. rewrite Hn, Hs.
  destruct (decide (i ∈ notified_instruments self)) as [Hin|Hnin].
  - split; [done|]. intros j. rewrite <- Hiff. set_solver.
  - split.
    + apply NoDup_app. split; [done|]. split; [|apply NoDup_singleton].
      intros j Hj ->%list_elem_of_singleton. by apply Hnin, Hiff.
    + intros j. rewrite elem_of_app, list_elem_of_singleton, <- Hiff.
      set_solver.
Qed.

Lemma serve_all_announced sw requests :
  announced_once sw.1 →
  let sw' := foldl serve sw requests in
  announced_once sw'.1
  ∧ ∀ i, i ∈ subscribed_instruments sw'.1
         ↔ i ∈ subscribed_instruments sw.1 ∨ i ∈ requested <$> requests.
Proof.
  revert sw. induction requests as [|r rs IH]; intros sw Hinv.
  - cbn. split; [done|]. intros i. rewrite elem_of_nil. tauto.
  - cbn [foldl]. cbn zeta.
    assert (Hstep : announced_once (serve sw r).1).
    { rewrite serve_service. by apply announced_once_step. }
    destruct (IH (serve sw r) Hstep) as [Hinv' Hiff]. split; [done|].
    intros i. rewrite Hiff, serve_service, fmap_cons, elem_of_cons.
    destruct (get_feed_uri_service sw.1 (requested r)) as (_ & _ & ->).
    destruct Hinv as [_ Hn].
    destruct (decide (requested r ∈ notified_instruments sw.1)) as [Hin|_].
    + apply Hn in Hin. naive_solver.
    + rewrite elem_of_app, list_elem_of_singleton. tauto.
Qed.

(** X7: the service announces every requested instrument exactly once. In
    whatever store, after any sequence of [get_trades], [get_order_books]
    and [get_order_book_events] requests to a new service, the values
    scheduled on [subscribed_instruments] are the requested instruments,
    none of them twice; an instrument is announced before the feed is
    acquired, so also when the acquisition raises. *)
Theorem service_announces_once (instance : string) (w : World)
    (requests : list Request) :
  let self := (foldl serve (__init__ instance, w) requests).1 in
  NoDup (subscribed_instruments self)
  ∧ ∀ i, i ∈ subscribed_instruments self ↔ i ∈ requested <$> requests.
Proof.
  destruct (serve_all_announced (__init__ instance, w) requests)
    as [[Hnd _] Hiff].
  { split; [apply NoDup_nil_2|]. intros i. cbn.
    rewrite elem_of_nil. set_solver. }
  split; [done|]. intros i. rewrite Hiff. cbn. rewrite elem_of_nil. tauto.
Qed.

Lemma get_returns field self i w a f w' :
  FeedHandlerRegistry.get_feed (__get_feed_uri self i).1 w = (Ok a, w') →
  feed_objects w' !! a = Some f →
  get field self i w = (Ok (field f), (__get_feed_uri self i).2, w').
Proof.
  intros Hget Hf. unfold get.
  destruct (__get_feed_uri self i) as [uri self']. cbn [fst snd] in *.
  rewrite bind_eq, Hget, bind_eq. unfold read_feed. by rewrite Hf.
Qed.

(** X8: what a strategy gets from the service on a first acquisition. In
    a store whose registry has no [Feed] cached under the product's URI
    phemex:instance:symbol (the instance and the symbol having no colon),
    once a Phemex handler has been constructed, registered and started, a
    new service of the same instance, asked for the trades of a product the
    handler's [include_symbol] admits, returns the signal the handler files
    as the trades of that symbol and has one [Feed] object created; asked
    then for the order-book events and the order books of the same
    instrument it returns the handler's other two signals for it, from the
    [Feed] now cached, and changes neither the store nor itself. With a
    [Feed] cached under the URI beforehand the service returns that
    [Feed]'s signals, which the theorem says nothing about. *)
Theorem service_returns_handler_signals
    (products : list PhemexFeedHandler.Product) (inc inst : string)
    (p : PhemexFeedHandler.Product) (w : World) :
  no_colon inst → no_colon (PhemexFeedHandler.symbol p) →
  p ∈ products →
  PhemexFeedHandler.symbol p = inc ∨ inc = "*" →
  feeds (registry w) !! feed_uri "phemex" inst (PhemexFeedHandler.symbol p)
  = None →
  let a : addr := length (handlers w) in
  let w1 := main_world products inc inst w in
  let i := instrument_of p in
  ∃ fh t e b self' w2,
    handlers w1 !! a = Some fh
    ∧ subscribed fh i t e b
    ∧ get_trades (__init__ inst) i w1 = (Ok t, self', w2)
    ∧ feed_objects w2 = feed_objects w1 ++ [mkFeed i t e b]
    ∧ get_order_book_events self' i w2 = (Ok e, self', w2)
    ∧ get_order_books self' i w2 = (Ok b, self', w2).
Proof.
  intros Hinst Hsym Hp Hinc Hc a w1 i.
  destruct (main_world_handler products inc inst w)
    as (fh & Hh & _ & Hs & Hi & _ & Hk & Hsig & Hreg & Hfeeds & _).
  fold a in Hh. fold w1 in Hh, Hreg, Hfeeds.
  destruct (Hsig p Hp) as ([t Ht] & [e He] & [b Hb]).
  { unfold included, instrument_of. cbn.
    destruct Hinc as [->| ->]; rewrite String.eqb_refl;
      [done | by rewrite orb_true_r]. }
  assert (Hsub : subscribed fh i t e b) by done.
  set (uri := feed_uri "phemex" inst (PhemexFeedHandler.symbol p)).
  assert (Huri : ∀ self, instance_id self = inst →
                         (__get_feed_uri self i).1 = uri).
  { intros self Hself. rewrite get_feed_uri_uri, Hself. reflexivity. }
  pose proof (registry_get_feed_first w1 a fh (PhemexFeedHandler.symbol p)
                i t e b) as Hacq.
  rewrite Hs, Hi in Hacq. cbn zeta in Hacq. fold uri in Hacq.
  specialize (Hacq eq_refl Hinst Hsym).
  rewrite Hfeeds in Hacq. specialize (Hacq Hc).
  unfold FeedHandlerRegistry._get_fh_key in Hacq. rewrite Hs, Hi in Hacq.
  specialize (Hacq Hreg Hh (Hk p Hp) Hsub).
  set (n := length (feed_objects w1)) in *.
  set (w2 := cached (acquired w1 uri (mkFeed i t e b)) uri n) in *.
  assert (Hf : feed_objects w2 !! n = Some (mkFeed i t e b)).
  { subst w2 n. cbn. by rewrite lookup_app_r, Nat.sub_diag. }
  set (self' := (__get_feed_uri (__init__ inst) i).2).
  assert (Hself' : instance_id self' = inst) by done.
  assert (Hfix : (__get_feed_uri self' i).2 = self').
  { subst self'. unfold __get_feed_uri at 1. cbn.
    rewrite decide_True; [done|]. set_solver. }
  assert (Hcached : FeedHandlerRegistry.get_feed uri w2 = (Ok n, w2)).
  { apply registry_get_feed_cached. subst w2. cbn. apply lookup_insert_eq. }
  exists fh, t, e, b, self', w2. split; [done|]. split; [done|].
  split.
  { unfold get_trades.
    rewrite (get_returns trades (__init__ inst) i w1 n (mkFeed i t e b) w2);
      [done| |exact Hf].
    by rewrite Huri. }
  split; [done|]. split.
  - unfold get_order_book_events.
    rewrite (get_returns order_book_events self' i w2 n (mkFeed i t e b) w2);
      [by rewrite Hfix| |exact Hf].
    by rewrite Huri.
  - unfold get_order_books.
    rewrite (get_returns order_books self' i w2 n (mkFeed i t e b) w2);
      [by rewrite Hfix| |exact Hf].
    by rewrite Huri.
Qed.

Lemma service_returns_handler_signals_witness :
  let w1 := main_world Example.products "*" "prod" empty_world in
  let i := instrument_of (PhemexFeedHandler.mkProduct "BTCUSD" "BTC" "USD" 4) in
  ∃ fh t e b self' w2,
    handlers w1 !! 0 = Some fh
    ∧ subscribed fh i t e b
    ∧ get_trades (__init__ "prod") i w1 = (Ok t, self', w2)
    ∧ feed_objects w2 = feed_objects w1 ++ [mkFeed i t e b]
    ∧ get_order_book_events self' i w2 = (Ok e, self', w2)
    ∧ get_order_books self' i w2 = (Ok b, self', w2).
Proof.
  apply (service_returns_handler_signals Example.products "*" "prod"
           (PhemexFeedHandler.mkProduct "BTCUSD" "BTC" "USD" 4) empty_world).
  - reflexivity.
  - reflexivity.
  - apply list_elem_of_singleton. reflexivity.
  - by right.
  - apply lookup_empty.
Defined.

End Service.

(** ** Order-book messages *)

Section BookMessages.

Import Book.

Lemma to_book_level_list_decoded price_scale raw book_levels :
  convertible (10 ^ Z.of_N price_scale) →
  Forall convertible_level raw →
  to_book_level_list price_scale raw book_levels
  = Ok (book_levels ++ (decoded_level price_scale <$> raw)).
Proof.
  intros Hscale Hraw. revert book_levels.
  induction Hraw as [|l raw [Hp Hq] _ IH]; intros book_levels; simpl.
  - by rewrite app_nil_r.
  - rewrite (float_of_int_convertible _ Hp), rbind_Ok.
    rewrite (div_pow10_convertible _ _ Hscale), rbind_Ok.
    rewrite (float_convertible _ Hq), rbind_Ok.
    rewrite IH, <- app_assoc. done.
Qed.

Lemma extract_order_book_event_run (self : FeedHandler) (w : World)
    (symbol ty : string) (i : ExchangeInstrument) (price_scale : N)
    (seq_num : Z) (rbids rasks : list RawLevel) :
  known_instrument_ids self !! symbol = Some i →
  price_scaling self !! symbol = Some price_scale →
  convertible (10 ^ Z.of_N price_scale) →
  Forall convertible_level rbids →
  Forall convertible_level rasks →
  let bids := decoded_level price_scale <$> rbids in
  let asks := decoded_level price_scale <$> rasks in
  __extract_order_book_event self
    (mkBookMessage (Some ty) (Some symbol) (Some seq_num)
       (Some (mkRawBook (Some rbids) (Some rasks)))) w
  = if String.eqb ty "snapshot"
    then (Ok (OrderBookSnapshot i bids asks seq_num),
          logged w "received initial L2 order book snapshot")
    else (Ok (OrderBookUpdate i bids asks seq_num), w).
Proof.
  intros Hk Hs Hscale Hb Ha bids asks.
  unfold __extract_order_book_event, getitem. cbn [msg_getitem
    book_msg_symbol book_msg_sequence book_msg_type book_msg_book
    raw_bids raw_asks].
  rewrite !bind_lift_Ok, Hk, bind_lift_Ok, Hs, !bind_lift_Ok.
  destruct (ty =? "snapshot")%string.
  - rewrite bind_eq. cbn [logger_info emit msg_getitem raw_bids raw_asks].
    rewrite !rbind_Ok, !to_book_level_list_decoded by done.
    by rewrite !bind_lift_Ok.
  - cbn [msg_getitem raw_bids raw_asks].
    rewrite !rbind_Ok, !to_book_level_list_decoded by done.
    by rewrite !bind_lift_Ok.
Qed.

(** X9: decoding a book message. For a message of a discovered symbol
    whose numbers convert to [float], [__extract_order_book_event] returns
    an event for the symbol's instrument with the message's sequence
    number, whose bids and asks are the message's levels in the same
    order, each price divided in binary64 by 10^price_scale. The event is a
    snapshot, with one log line, exactly when the type is "snapshot"; for
    every other type it is an update and nothing is logged. *)
Theorem extract_order_book_event_decoded (self : FeedHandler) (w : World)
    (symbol ty : string) (i : ExchangeInstrument) (price_scale : N)
    (seq_num : Z) (rbids rasks : list RawLevel) :
  known_instrument_ids self !! symbol = Some i →
  price_scaling self !! symbol = Some price_scale →
  convertible (10 ^ Z.of_N price_scale) →
  Forall convertible_level rbids →
  Forall convertible_level rasks →
  let bids := decoded_level price_scale <$> rbids in
  let asks := decoded_level price_scale <$> rasks in
  __extract_order_book_event self
    (mkBookMessage (Some ty) (Some symbol) (Some seq_num)
       (Some (mkRawBook (Some rbids) (Some rasks)))) w
  = if String.eqb ty "snapshot"
    then (Ok (OrderBookSnapshot i bids asks seq_num),
          logged w "received initial L2 order book snapshot")
    else (Ok (OrderBookUpdate i bids asks seq_num), w).
Proof.
  intros Hk Hs Hscale Hb Ha bids asks.
  unfold __extract_order_book_event, getitem. cbn [msg_getitem
    book_msg_symbol book_msg_sequence book_msg_type book_msg_book
    raw_bids raw_asks].
  rewrite !bind_lift_Ok, Hk, bind_lift_Ok, Hs, !bind_lift_Ok.
  destruct (ty =? "snapshot")%string.
  - rewrite bind_eq. cbn [logger_info emit msg_getitem raw_bids raw_asks].
    rewrite !rbind_Ok, !to_book_level_list_decoded by done.
    by rewrite !bind_lift_Ok.
  - cbn [msg_getitem raw_bids raw_asks].
    rewrite !rbind_Ok, !to_book_level_list_decoded by done.
    by rewrite !bind_lift_Ok.
Qed.

Lemma extract_order_book_event_decoded_witness :
  let self := Example.handler_of Example.constructed in
  __extract_order_book_event self
    (mkBookMessage (Some "snapshot") (Some "BTCUSD") (Some 7%Z)
       (Some (mkRawBook (Some [mkRawLevel 3427800 (Int 5)])
                (Some [mkRawLevel 3427900 (Int 3)])))) empty_world
  = if String.eqb "snapshot" "snapshot"
    then (Ok (OrderBookSnapshot Example.BTCUSD
                (decoded_level 4 <$> [mkRawLevel 3427800 (Int 5)])
                (decoded_level 4 <$> [mkRawLevel 3427900 (Int 3)]) 7),
          logged empty_world "received initial L2 order book snapshot")
    else (Ok (OrderBookUpdate Example.BTCUSD
                (decoded_level 4 <$> [mkRawLevel 3427800 (Int 5)])
                (decoded_level 4 <$> [mkRawLevel 3427900 (Int 3)]) 7),
          empty_world).
Proof.
  apply (extract_order_book_event_decoded
           (Example.handler_of Example.constructed) empty_world
           "BTCUSD" "snapshot" Example.BTCUSD 4%N 7
           [mkRawLevel 3427800 (Int 5)] [mkRawLevel 3427900 (Int 3)]).
  - vm_compute; reflexivity.
  - vm_compute; reflexivity.
  - vm_compute; reflexivity.
  - repeat constructor; vm_compute; reflexivity.
  - repeat constructor; vm_compute; reflexivity.
Defined.



(** X11: from a snapshot message to the book. A snapshot message of a
    discovered and subscribed symbol whose numbers convert passes the book
    pipeline as a snapshot event, which the scheduler puts on the handler's
    book-event signal of that symbol; a builder that receives it, whatever
    book it held, then holds exactly the message's levels with prices
    divided by 10^price_scale. *)
Theorem snapshot_message_rebuilds_book (self : FeedHandler) (w : World)
    (symbol : string) (i : ExchangeInstrument) (price_scale : N)
    (seq_num : Z) (rbids rasks : list RawLevel) (e : signal) :
  known_instrument_ids self !! symbol = Some i →
  price_scaling self !! symbol = Some price_scale →
  convertible (10 ^ Z.of_N price_scale) →
  Forall convertible_level rbids →
  Forall convertible_level rasks →
  instrument_order_book_events self !! exchange_instrument_code i = Some e →
  ∃ ev,
    on_order_book_message self
      (BookJson (mkBookMessage (Some "snapshot") (Some symbol) (Some seq_num)
                   (Some (mkRawBook (Some rbids) (Some rasks))))) w
    = (Ok (Some ev), logged w "received initial L2 order book snapshot")
    ∧ OrderBookEventScheduler.on_activate self (Some ev)
      = Ok (true, Some (e, ev))
    ∧ ∀ builder,
        order_book (_call builder (Some ev))
        = mkOrderBook (decoded_level price_scale <$> rbids)
            (decoded_level price_scale <$> rasks).
Proof.
  intros Hk Hs Hscale Hb Ha He.
  eexists. split; [|split].
  - unfold on_order_book_message.
    cbn [book_json_loads]. rewrite bind_lift_Ok. cbn [dict_get].
    rewrite bind_lift_Ok. change (is_book_event _) with true. cbn iota.
    rewrite bind_eq.
    rewrite (extract_order_book_event_run self w symbol "snapshot" i
               price_scale seq_num rbids rasks) by done.
    change ("snapshot" =? "snapshot")%string with true. cbn iota.
    reflexivity.
  - unfold OrderBookEventScheduler.on_activate, getitem.
    cbn [event_instrument]. by rewrite He.
  - done.
Qed.

Lemma snapshot_message_rebuilds_book_witness :
  let self := Example.handler_of Example.live in
  ∃ ev,
    on_order_book_message self
      (BookJson (mkBookMessage (Some "snapshot") (Some "BTCUSD") (Some 7%Z)
                   (Some (mkRawBook (Some [mkRawLevel 3427800 (Int 5)])
                            (Some [mkRawLevel 3427900 (Int 3)]))))) empty_world
    = (Ok (Some ev), logged empty_world "received initial L2 order book snapshot")
    ∧ OrderBookEventScheduler.on_activate self (Some ev)
      = Ok (true, Some (1, ev))
    ∧ ∀ builder,
        order_book (_call builder (Some ev))
        = mkOrderBook (decoded_level 4 <$> [mkRawLevel 3427800 (Int 5)])
            (decoded_level 4 <$> [mkRawLevel 3427900 (Int 3)]).
Proof.
  apply (snapshot_message_rebuilds_book (Example.handler_of Example.live)
           empty_world "BTCUSD" Example.BTCUSD 4%N 7
           [mkRawLevel 3427800 (Int 5)] [mkRawLevel 3427900 (Int 3)] 1).
  - vm_compute; reflexivity.
  - vm_compute; reflexivity.
  - vm_compute; reflexivity.
  - repeat constructor; vm_compute; reflexivity.
  - repeat constructor; vm_compute; reflexivity.
  - vm_compute; reflexivity.
Defined.

End BookMessages.

(** ** Journaling order books *)

Section BookJournal.

Import SubscribeTrades SubscribeOrderBook.

Variables (get_best_bid get_best_ask : Book.OrderBook → Book.BookLevel).

Local Abbreviation update := (on_book_update get_best_bid get_best_ask).
Local Abbreviation updates := (on_books get_best_bid get_best_ask).

Lemma on_book_update_record self utcnow book :
  ∃ bq bp aq ap,
    SubscribeOrderBook.appender (update self utcnow book)
    = SubscribeOrderBook.appender self
      ++ [write_double utcnow; write_double bq; write_double bp;
          write_double aq; write_double ap].
Proof.
  unfold on_book_update. cbn [SubscribeOrderBook.appender].
  destruct (bool_decide (0 < length (Book.bids book)));
    destruct (bool_decide (0 < length (Book.asks book)));
    by eexists _, _, _, _.
Qed.

Lemma on_books_extends self ticks :
  ∃ fields,
    SubscribeOrderBook.appender (updates self ticks)
    = SubscribeOrderBook.appender self ++ fields
    ∧ length fields = 5 * length ticks.
Proof.
  revert self. induction ticks as [|[utcnow book] ticks IH]; intros self.
  - exists []. by rewrite app_nil_r.
  - destruct (IH (update self utcnow book)) as (fields & Hf & Hl).
    destruct (on_book_update_record self utcnow book)
      as (bq & bp & aq & ap & Hr).
    eexists. change (updates self ((utcnow, book) :: ticks))
      with (updates (update self utcnow book) ticks).
    rewrite Hf, Hr, <- app_assoc. split; [reflexivity|].
    rewrite length_app, Hl. cbn [length]. lia.
Qed.

(** X12: the journal of book ticks has records of fixed width. Every book
    update appends exactly five float64 fields, whether or not the book has
    bids or asks, so after [n] updates the journal is 5n fields longer and
    the record of the k-th update starts 5k fields in, with that update's
    timestamp; for a book with no bids and no asks the four fields after
    the timestamp are zeros, without the best levels being asked for. *)
Theorem book_journal_fixed_width (self : SubscribeOrderBook.t)
    (ticks : list (float * Book.OrderBook)) :
  length (SubscribeOrderBook.appender (updates self ticks))
  = length (SubscribeOrderBook.appender self) + 5 * length ticks
  ∧ (∀ k utcnow book, ticks !! k = Some (utcnow, book) →
       SubscribeOrderBook.appender (updates self ticks)
         !! (length (SubscribeOrderBook.appender self) + 5 * k)
       = Some (write_double utcnow))
  ∧ (∀ utcnow,
       SubscribeOrderBook.appender
         (update self utcnow (Book.mkOrderBook [] []))
       = SubscribeOrderBook.appender self
         ++ [write_double utcnow; write_double 0; write_double 0;
             write_double 0; write_double 0]).
Proof.
  split; [|split].
  - destruct (on_books_extends self ticks) as (fields & -> & Hl).
    rewrite length_app. lia.
  - revert self. induction ticks as [|[u bk] ticks IH];
      intros self k utcnow book Hk; [done|].
    change (updates self ((u, bk) :: ticks))
      with (updates (update self u bk) ticks).
    destruct (on_book_update_record self u bk) as (bq & bp & aq & ap & Hr).
    destruct k as [|k].
    + injection Hk as -> ->.
      destruct (on_books_extends (update self utcnow book) ticks)
        as (fields & -> & _).
      rewrite Hr, <- !app_assoc, Nat.add_0_r.
      by rewrite lookup_app_r, Nat.sub_diag.
    + specialize (IH (update self u bk) k utcnow book Hk).
      rewrite Hr, length_app in IH. cbn [length] in IH.
      rewrite <- IH. f_equal. lia.
  - done.
Qed.

End BookJournal.

Lemma book_journal_fixed_width_witness :
  let best_bid b := default (Book.mkBookLevel 0 0) (head (Book.bids b)) in
  let best_ask b := default (Book.mkBookLevel 0 0) (head (Book.asks b)) in
  let one_bid := Book.mkOrderBook [Book.mkBookLevel 9500 3] [] in
  SubscribeOrderBook.appender
    (SubscribeOrderBook.on_books best_bid best_ask
       (SubscribeOrderBook.mk [] 0)
       [(1%float, Book.mkOrderBook [] []); (2%float, one_bid)])
    !! 5
  = Some (SubscribeTrades.write_double 2).
Proof.
  intros best_bid best_ask one_bid.
  apply (proj1 (proj2 (book_journal_fixed_width best_bid best_ask
                         (SubscribeOrderBook.mk [] 0)
                         [(1%float, Book.mkOrderBook [] []);
                          (2%float, one_bid)]))
           1 2%float one_bid).
  reflexivity.
Defined.

(** ** Going live *)

Lemma append_inj_r (p x y : string) : p +:+ x = p +:+ y → x = y.
Proof. induction p as [|c p IH]; cbn; [done|]. intros [= H]. by apply IH. Qed.

Lemma feed_uri_inj scheme instance x y :
  feed_uri scheme instance x = feed_uri scheme instance y → x = y.
Proof.
  unfold feed_uri. intros H.
  by repeat apply append_inj_r in H.
Qed.

(** X13: before the handler is live the journaling events do nothing. An
    event activated while the handler's state is not LIVE returns [False],
    acquires no feed, opens no journal, whatever opening one would do, and
    leaves the store as it is. *)
Theorem on_activate_before_live
    (Journal create_appender : string → result unit)
    (suffix : string) (field : Feed → signal)
    (a : addr) (h : FeedHandler) (w : World)
    (uri_scheme instance_id journal_path db trade_symbol : string) :
  handlers w !! a = Some h →
  state h ≠ LIVE →
  ws_fh_main.on_activate Journal create_appender suffix field a uri_scheme
    instance_id journal_path db trade_symbol w
  = (Ok (false, None), w).
Proof.
  intros Hh Hst. unfold ws_fh_main.on_activate.
  rewrite bind_eq. unfold read_handler. rewrite Hh.
  by destruct (state h).
Qed.

Lemma on_activate_before_live_witness :
  ws_fh_main.on_activate (λ _, Raise (OSError "Read-only file system"))
    (λ _, Raise (OSError "Read-only file system"))
    "_TRADES/" trades 0 "phemex" "prod" "/journals"
    "PHEMEX" "BTCUSD" Example.constructed
  = (Ok (false, None), Example.constructed).
Proof.
  apply (on_activate_before_live _ _ "_TRADES/" trades 0
           (Example.handler_of Example.constructed)).
  - vm_compute; reflexivity.
  - vm_compute; discriminate.
Defined.

Section GoLive.

Variables (Journal create_appender : string → result unit).

Lemma on_activate_live suffix field a fh jp db symbol i t e b w :
  no_colon (uri_scheme fh) → no_colon (instance_id fh) → no_colon symbol →
  handlers w !! a = Some fh →
  state fh = LIVE →
  fh_registry (registry w) !! FeedHandlerRegistry._get_fh_key fh = Some a →
  live_cache fh w →
  known_instrument_ids fh !! symbol = Some i →
  subscribed fh i t e b →
  let path := jp +:+ "/" +:+ db +:+ suffix +:+ exchange_instrument_code i in
  ∃ w',
    ws_fh_main.on_activate Journal create_appender suffix field a
      (uri_scheme fh) (instance_id fh) jp db symbol w
    = (match Journal path with
       | Raise e => Raise e
       | Ok _ =>
           match create_appender path with
           | Raise e => Raise e
           | Ok _ =>
               Ok (false,
                   Some {| ws_fh_main.journal := path;
                           ws_fh_main.source := field (mkFeed i t e b) |})
           end
       end, w')
    ∧ handlers w' = handlers w
    ∧ fh_registry (registry w') = fh_registry (registry w)
    ∧ live_cache fh w'.
Proof.
  intros Hs Hi Hx Hh Hlive Hreg Hcache Hk Hsub path.
  assert (Hjournal : ∀ w',
    (lift (Journal path);;
     lift (create_appender path);;
     mret (false, Some {| ws_fh_main.journal := path;
                          ws_fh_main.source := field (mkFeed i t e b) |}))
      w'
    = (match Journal path with
       | Raise e => Raise e
       | Ok _ =>
           match create_appender path with
           | Raise e => Raise e
           | Ok _ =>
               Ok (false,
                   Some {| ws_fh_main.journal := path;
                           ws_fh_main.source := field (mkFeed i t e b) |})
           end
       end, w')).
  { intros w'. rewrite bind_eq. unfold lift.
    destruct (Journal path) as [[]|e1]; [|done].
    rewrite bind_eq. by destruct (create_appender path) as [[]|e2]. }
  unfold ws_fh_main.on_activate.
  rewrite bind_eq. unfold read_handler. rewrite Hh, Hlive.
  change (uri_scheme fh +:+ ":" +:+ instance_id fh +:+ ":" +:+ symbol)
    with (feed_uri (uri_scheme fh) (instance_id fh) symbol).
  set (uri := feed_uri (uri_scheme fh) (instance_id fh) symbol).
  destruct (feeds (registry w) !! uri) as [a'|] eqn:Hc.
  - destruct (Hcache uri a' Hc)
      as (symbol' & i' & t' & e' & b' & Huri & Hk' & Hsub' & Hf).
    apply feed_uri_inj in Huri as <-.
    assert (i' = i) as -> by congruence.
    destruct Hsub as (Ht & He & Hb), Hsub' as (Ht' & He' & Hb').
    assert (t' = t) as -> by congruence.
    assert (e' = e) as -> by congruence.
    assert (b' = b) as -> by congruence.
    exists w. rewrite bind_eq, (registry_get_feed_cached _ _ _ Hc).
    rewrite bind_eq. unfold read_feed. rewrite Hf.
    cbn [instrument]. fold path. by rewrite Hjournal.
  - pose proof (registry_get_feed_first w a fh symbol i t e b
                  Hs Hi Hx Hc Hreg Hh Hk Hsub) as Hacq.
    fold uri in Hacq. eexists.
    rewrite bind_eq, Hacq, bind_eq. unfold read_feed.
    cbn [cached acquired feed_objects].
    rewrite lookup_app_r, Nat.sub_diag by done. cbn [lookup list_lookup].
    cbn [instrument]. fold path. rewrite Hjournal.
    split; [reflexivity|]. split; [done|]. split; [done|].
    intros uri' a' Hc'. cbn [cached registry feeds] in Hc'.
    cbn [feed_objects].
    destruct (decide (uri = uri')) as [<-|Hne].
    + rewrite lookup_insert_eq in Hc'. injection Hc' as <-.
      exists symbol, i, t, e, b. split; [done|]. split; [done|].
      split; [done|]. cbn [cached acquired feed_objects].
      by rewrite lookup_app_r, Nat.sub_diag.
    + rewrite lookup_insert_ne in Hc' by done.
      destruct (Hcache uri' a' Hc')
        as (symbol' & i' & t' & e' & b' & Huri & Hk' & Hsub' & Hf).
      exists symbol', i', t', e', b'. repeat (split; [done|]).
      cbn [cached acquired feed_objects]. by apply lookup_app_l_Some.
Qed.

Lemma activate_live events a fh jp db w :
  no_colon (uri_scheme fh) → no_colon (instance_id fh) →
  handlers w !! a = Some fh →
  state fh = LIVE →
  fh_registry (registry w) !! FeedHandlerRegistry._get_fh_key fh = Some a →
  live_cache fh w →
  Forall (λ ev, no_colon ev.2
                ∧ ∃ i t e b,
                    known_instrument_ids fh !! ev.2 = Some i
                    ∧ exchange_instrument_code i = ev.2
                    ∧ subscribed fh i t e b) events →
  match ws_fh_main.activate Journal create_appender events a
          (uri_scheme fh) (instance_id fh) jp db w with
  | (Ok rs, _) => Forall2 (connects fh jp db) events rs
  | (Raise err, _) =>
      ∃ ev, ev ∈ events
            ∧ journal_fault Journal create_appender (journal_of jp db ev) err
  end.
Proof.
  intros Hs Hi Hh Hlive Hreg Hcache Hev. revert w Hh Hreg Hcache.
  induction Hev as [|[is_trade symbol] events Hhd _ IH];
    intros w Hh Hreg Hcache.
  - constructor.
  - destruct Hhd as (Hx & i & t & e & b & Hk & Hcode & Hsub).
    cbn [snd] in Hx, Hk, Hcode.
    cbn [ws_fh_main.activate].
    unfold ws_fh_main.SubscribeTrades_on_activate,
      ws_fh_main.SubscribeOrderBook_on_activate.
    set (path := journal_of jp db (is_trade, symbol)).
    assert (∃ w1,
      (if is_trade
       then ws_fh_main.on_activate Journal create_appender "_TRADES/" trades
              a (uri_scheme fh) (instance_id fh) jp db symbol
       else ws_fh_main.on_activate Journal create_appender "_BOOKS/"
              order_books a (uri_scheme fh) (instance_id fh) jp db symbol) w
      = (match Journal path with
         | Raise err => Raise err
         | Ok _ =>
             match create_appender path with
             | Raise err => Raise err
             | Ok _ =>
                 Ok (false,
                     Some {| ws_fh_main.journal := path;
                             ws_fh_main.source :=
                               if is_trade then t else b |})
             end
         end, w1)
      ∧ handlers w1 = handlers w
      ∧ fh_registry (registry w1) = fh_registry (registry w)
      ∧ live_cache fh w1) as (w1 & Hrun & Hh1 & Hreg1 & Hcache1).
    { subst path. unfold journal_of. cbn [fst snd]. destruct is_trade.
      - destruct (on_activate_live "_TRADES/" trades a fh jp db symbol
                    i t e b w Hs Hi Hx Hh Hlive Hreg Hcache Hk Hsub)
          as (w1 & Hrun & ? & ? & ?).
        rewrite Hcode in Hrun. by exists w1.
      - destruct (on_activate_live "_BOOKS/" order_books a fh jp db symbol
                    i t e b w Hs Hi Hx Hh Hlive Hreg Hcache Hk Hsub)
          as (w1 & Hrun & ? & ? & ?).
        rewrite Hcode in Hrun. by exists w1. }
    rewrite bind_eq, Hrun.
    destruct (Journal path) as [[]|err] eqn:HJ.
    2:{ exists (is_trade, symbol). split; [by left|]. by left. }
    destruct (create_appender path) as [[]|err] eqn:HC.
    2:{ exists (is_trade, symbol). split; [by left|]. by right. }
    rewrite bind_eq.
    specialize (IH w1). rewrite Hh1, Hreg1 in IH.
    specialize (IH Hh Hreg Hcache1).
    destruct (ws_fh_main.activate Journal create_appender events a
                (uri_scheme fh) (instance_id fh) jp db w1) as [[rs|err] w2].
    + cbn. constructor; [|done]. split; [done|]. cbn [fst snd].
      destruct Hsub as (Ht & He & Hb). rewrite Hcode in Ht, Hb.
      destruct is_trade; [by exists t | by exists b].
    + destruct IH as (ev & Hin & Hfault). exists ev. split; [by right|done].
Qed.

End GoLive.

Lemma connected_events_included products inc journal_books ev :
  ev ∈ ws_fh_main.connected_events (instrument_of <$> products) inc
         journal_books →
  ∃ p, p ∈ products ∧ ev.2 = PhemexFeedHandler.symbol p
       ∧ included inc (instrument_of p) = true.
Proof.
  unfold ws_fh_main.connected_events.
  rewrite list_elem_of_In, in_flat_map.
  intros (i & Hi & Hev). apply list_elem_of_In in Hi, Hev.
  apply list_elem_of_fmap in Hi as (p & -> & Hp).
  exists p. split; [done|].
  change (exchange_instrument_code (instrument_of p) =? inc)%string
    with (PhemexFeedHandler.symbol p =? inc)%string in Hev.
  unfold included. cbn.
  destruct ((PhemexFeedHandler.symbol p =? inc)%string || (inc =? "*")%string);
    cbn in Hev; [|by apply elem_of_nil in Hev].
  split; [|done].
  apply elem_of_app in Hev as [Hev|Hev].
  - destruct journal_books; [|by apply elem_of_nil in Hev].
    by apply list_elem_of_singleton in Hev as ->.
  - by apply list_elem_of_singleton in Hev as ->.
Qed.

(** X14: going live asks only for feeds the handler has. In the store
    [ws_fh_main] has built, with nothing cached in the registry beforehand,
    the handler constructed, registered and started with the same instance
    and [include_symbol] that the loop of [ws_fh_main] uses, and no colon
    in the instance or in a product symbol, the activation of all the
    events that loop connected has one of two outcomes. Either every event
    returns [False] after connecting the journal of its kind and symbol to
    the signal the handler files for that kind and symbol; or it raises
    what opening the journal of one of the events raised. It raises for
    nothing else: not for a feed that is missing, not for the handler or
    its registration. So when the journal of every event opens, the
    activation returns. *)
Theorem go_live_outcome (Journal create_appender : string → result unit)
    (products : list PhemexFeedHandler.Product)
    (inc inst journal_path db : string) (journal_books : bool) (w : World) :
  no_colon inst →
  (∀ p, p ∈ products → no_colon (PhemexFeedHandler.symbol p)) →
  feeds (registry w) = ∅ →
  let a : addr := length (handlers w) in
  let w1 := main_world products inc inst w in
  ∃ fh,
    handlers w1 !! a = Some fh
    ∧ state fh = LIVE
    ∧ let events :=
        ws_fh_main.connected_events (instruments fh) inc journal_books in
      let outcome :=
        ws_fh_main.activate Journal create_appender events a
          PhemexFeedHandler.get_uri_scheme inst journal_path db w1 in
      match outcome.1 with
      | Ok rs => Forall2 (connects fh journal_path db) events rs
      | Raise err =>
          ∃ ev, ev ∈ events
                ∧ journal_fault Journal create_appender
                    (journal_of journal_path db ev) err
      end
      ∧ ((∀ ev, ev ∈ events →
            Journal (journal_of journal_path db ev) = Ok tt
            ∧ create_appender (journal_of journal_path db ev) = Ok tt) →
         ∃ rs, outcome.1 = Ok rs).
Proof.
  intros Hinst Hsyms Hempty a w1.
  destruct (main_world_handler products inc inst w)
    as (fh & Hh & Hlive & Hs & Hi & Hl & Hk & Hsig & Hreg & Hfeeds & _).
  fold a in Hh. fold w1 in Hh, Hreg, Hfeeds.
  exists fh. split; [done|]. split; [done|]. intros events outcome.
  assert (Hout :
    match outcome.1 with
    | Ok rs => Forall2 (connects fh journal_path db) events rs
    | Raise err =>
        ∃ ev, ev ∈ events
              ∧ journal_fault Journal create_appender
                  (journal_of journal_path db ev) err
    end).
  { assert (Hev : Forall (λ ev, no_colon ev.2
                                ∧ ∃ i t e b,
                                    known_instrument_ids fh !! ev.2 = Some i
                                    ∧ exchange_instrument_code i = ev.2
                                    ∧ subscribed fh i t e b) events).
    { apply Forall_forall. intros ev Hev. subst events. rewrite Hl in Hev.
      apply connected_events_included in Hev as (p & Hp & -> & Hin).
      split; [by apply Hsyms|].
      destruct (Hsig p Hp Hin) as ([t Ht] & [e He] & [b Hb]).
      exists (instrument_of p), t, e, b. split; [by apply Hk|].
      split; [done|]. by repeat split. }
    assert (Hkey : fh_registry (registry w1)
                     !! FeedHandlerRegistry._get_fh_key fh = Some a).
    { unfold FeedHandlerRegistry._get_fh_key. by rewrite Hs, Hi. }
    assert (Hcache : live_cache fh w1).
    { intros uri a' Hc. by rewrite Hfeeds, Hempty, lookup_empty in Hc. }
    assert (Hcs : no_colon (uri_scheme fh)) by (by rewrite Hs).
    assert (Hci : no_colon (instance_id fh)) by (by rewrite Hi).
    pose proof (activate_live Journal create_appender events a fh
                  journal_path db w1 Hcs Hci Hh Hlive Hkey Hcache Hev)
      as Hact.
    rewrite Hs, Hi in Hact.
    change (ws_fh_main.activate _ _ _ _ _ _ _ _ _) with outcome in Hact.
    clearbody outcome. by destruct outcome as [[rs|err] w2]. }
  split; [done|]. intros Hopen.
  destruct outcome.1 as [rs|err]; [by exists rs|].
  destruct Hout as (ev & Hin & [HJ|[_ HC]]);
    destruct (Hopen ev Hin) as [HJ' HC']; congruence.
Qed.

Lemma go_live_outcome_witness :
  let Journal : string → result unit := λ _, Ok tt in
  let create_appender : string → result unit :=
    λ path, if String.eqb path "/behemoth/journals//PHEMEX_BOOKS/BTCUSD"
            then Raise (OSError "Permission denied") else Ok tt in
  let w1 := main_world Example.products "*" "prod" empty_world in
  ∃ fh,
    handlers w1 !! 0 = Some fh
    ∧ state fh = LIVE
    ∧ let events := ws_fh_main.connected_events (instruments fh) "*" true in
      let outcome :=
        ws_fh_main.activate Journal create_appender events 0
          PhemexFeedHandler.get_uri_scheme "prod" "/behemoth/journals/"
          "PHEMEX" w1 in
      match outcome.1 with
      | Ok rs => Forall2 (connects fh "/behemoth/journals/" "PHEMEX") events rs
      | Raise err =>
          ∃ ev, ev ∈ events
                ∧ journal_fault Journal create_appender
                    (journal_of "/behemoth/journals/" "PHEMEX" ev) err
      end
      ∧ ((∀ ev, ev ∈ events →
            Journal (journal_of "/behemoth/journals/" "PHEMEX" ev) = Ok tt
            ∧ create_appender (journal_of "/behemoth/journals/" "PHEMEX" ev)
              = Ok tt) →
         ∃ rs, outcome.1 = Ok rs).
Proof.
  intros Journal create_appender.
  apply (go_live_outcome Journal create_appender Example.products "*" "prod"
           "/behemoth/journals/" "PHEMEX" true empty_world).
  - reflexivity.
  - intros p Hp. apply list_elem_of_singleton in Hp as ->. reflexivity.
  - reflexivity.
Defined.
